(** * line_replacer: replacing one line of a text file

    A shallow embedding of [src/tools/line_replacer.c] and the properties
    its specification states about it.

    Conventions of the embedding.
    - A byte is an [ascii]; a [char *] is the list of bytes it points to,
      read as a C string (up to the first NUL byte) by the functions of
      the C library, as they do.
    - The [char **lines] array is a list of slots; a slot that [malloc] or
      [realloc] handed out and nobody wrote is [None].  Reading such a
      slot, or indexing outside the array, is undefined behaviour in C: the
      embedding returns [None] there, so a theorem that says
      [replace_line ... = Some ...] also says that the run makes no such
      access (within the limits on [int] and allocation stated below).
    - The file system maps a path to a file (content and permissions);
      [stderr] is the list of diagnostics printed so far.
    - [int] values are integers of [Z].  [line_num] ranges over all of [Z],
      which covers every [int]; [num_lines] and [capacity] are not bounded,
      and [malloc], [realloc] and [strdup] always succeed: the embedding
      leaves out exhaustion of memory and the overflow of [capacity *= 2]
      (beyond 1677721600 stored lines).
    - The source text has [&amp;&amp;] at line 32; it is read as [&&]. *)

From Stdlib Require Import ZArith Ascii String.
From stdpp Require Import gmap strings list.

Local Open Scope Z_scope.

(** ** Bytes and C strings *)

Abbreviation bytes := (list ascii).

Definition NUL : ascii := "000"%char.
Definition LF : ascii := "010"%char.

(** The bytes of a string literal. *)
Definition lit (s : string) : bytes := list_ascii_of_string s.

(** The C string a pointer points to: the bytes before the first NUL. *)
Fixpoint c_string (p : bytes) : bytes :=
  match p with
  | [] => []
  | c :: p' => if decide (c = NUL) then [] else c :: c_string p'
  end.

Definition strlen (p : bytes) : Z := Z.of_nat (length (c_string p)).

Definition strdup (p : bytes) : bytes := c_string p.

(** [sprintf(dst, "%s\n", s)]: the bytes written to [dst]. *)
Definition sprintf_line (s : bytes) : bytes := c_string s ++ [LF].

(** ** The file system and the error stream *)

Record inode := Inode {
  data : bytes;
  readable : bool;
  writable : bool
}.

(** One constructor per [fprintf(stderr, ...)] of the source, with the
    arguments of its format. *)
Inductive diag :=
  | CannotOpen (filename : bytes)
  | OutOfRange (line_num num_lines : Z)
  | CannotWrite (filename : bytes)
  | Usage (argv0 : option bytes).

Record world := World {
  fs : gmap bytes inode;
  stderr : list diag
}.

Definition fprintf_stderr (d : diag) (w : world) : world :=
  {| fs := fs w; stderr := stderr w ++ [d] |}.

(** [fopen(filename, "r")]: the stream of the bytes still to read, or
    [None] for a NULL result. *)
Definition fopen_r (filename : bytes) (w : world) : option bytes :=
  match fs w !! filename with
  | Some f => if readable f then Some (data f) else None
  | None => None
  end.

(** [fopen(filename, "w")]: truncates an existing writable file, creates
    a missing one; [None] for a NULL result. *)
Definition fopen_w (filename : bytes) (w : world) : option world :=
  match fs w !! filename with
  | Some f =>
      if writable f
      then Some {| fs := <[filename := {| data := []; readable := readable f;
                                          writable := writable f |}]> (fs w);
                   stderr := stderr w |}
      else None
  | None =>
      Some {| fs := <[filename := {| data := []; readable := true;
                                     writable := true |}]> (fs w);
              stderr := stderr w |}
  end.

(** [fputs(s, file)] on the stream opened for [filename]. *)
Definition fputs (s : bytes) (filename : bytes) (w : world) : world :=
  {| fs := alter (fun f => {| data := data f ++ c_string s;
                              readable := readable f;
                              writable := writable f |}) filename (fs w);
     stderr := stderr w |}.

(** The content of the file at a path, when there is one. *)
Definition content_of (filename : bytes) (w : world) : option bytes :=
  data <$> fs w !! filename.

(** [fgets(buffer, size, file)] reads at most [size - 1] bytes and stops
    after a newline.  [fgets_aux room file] is the pair of the bytes read
    and the bytes left. *)
Fixpoint fgets_aux (room : nat) (file : bytes) : bytes * bytes :=
  match room, file with
  | O, _ => ([], file)
  | _, [] => ([], [])
  | S room', c :: file' =>
      if decide (c = LF) then ([c], file')
      else let '(buffer, rest) := fgets_aux room' file' in (c :: buffer, rest)
  end.

(** [None] is the NULL result at end of file; otherwise the buffer (the
    terminating NUL is left implicit) and the rest of the stream. *)
Definition fgets (size : Z) (file : bytes) : option (bytes * bytes) :=
  match file with
  | [] => None
  | _ :: _ => Some (fgets_aux (Z.to_nat (size - 1)) file)
  end.

(** ** The array of lines *)

Abbreviation slot := (option bytes).

Definition malloc_slots (n : Z) : list slot := replicate (Z.to_nat n) None.

Definition realloc_slots (a : list slot) (n : Z) : list slot :=
  take (Z.to_nat n) a ++ replicate (Z.to_nat n - length a)%nat None.

(** [a[i]] read as a pointer to a string. *)
Definition load (a : list slot) (i : Z) : option bytes :=
  if 0 <=? i then mjoin (a !! Z.to_nat i) else None.

(** [a[i] = p]. *)
Definition store (a : list slot) (i : Z) (p : bytes) : option (list slot) :=
  if (0 <=? i) && (i <? Z.of_nat (length a))
  then Some (<[Z.to_nat i := Some p]> a)
  else None.

Record line_array := LineArray {
  lines : list slot;
  num_lines : Z;
  capacity : Z
}.

(** ** replace_line *)

Definition MAX_LINE_LENGTH : Z := 10000.

(** The locals [lines], [num_lines] and [capacity] before the loop
    (source lines 15-18). *)
Definition empty_array : line_array :=
  {| lines := malloc_slots 100; num_lines := 0; capacity := 100 |}.

(** The body of the [while] loop (source lines 22-27). *)
Definition read_body (buffer : bytes) (st : line_array) : option line_array :=
  let st1 :=
    if num_lines st >=? capacity st
    then {| lines := realloc_slots (lines st) (capacity st * 2);
            num_lines := num_lines st;
            capacity := capacity st * 2 |}
    else st in
  lines' ← store (lines st1) (num_lines st1) (strdup buffer);
  Some {| lines := lines'; num_lines := num_lines st1 + 1;
          capacity := capacity st1 |}.

(** [while (fgets(buffer, size, file)) { ... }].  Every turn consumes a
    byte of the stream, so [length file] turns are enough
    ([read_lines_eq] below is the loop's equation). *)
Fixpoint read_loop (size : Z) (fuel : nat) (file : bytes) (st : line_array)
  : option line_array :=
  match fuel with
  | O => Some st
  | S fuel' =>
      match fgets size file with
      | None => Some st
      | Some (buffer, file') =>
          st' ← read_body buffer st;
          read_loop size fuel' file' st'
      end
  end.

Definition read_lines (size : Z) (file : bytes) (st : line_array)
  : option line_array :=
  read_loop size (length file) file st.

(** [for (i = 0; i < num_lines; i++) fputs(lines[i], file)], with [todo]
    the number of turns left. *)
Fixpoint write_loop (todo : nat) (i : Z) (a : list slot) (filename : bytes)
  (w : world) : option world :=
  match todo with
  | O => Some w
  | S todo' =>
      p ← load a i;
      write_loop todo' (i + 1) a filename (fputs p filename w)
  end.

(** [replace_line] (source lines 7-56): the result is the value returned
    and the world after the call.  [free(lines[line_num - 1])] needs the
    slot to hold a pointer: it is the [load] before the [store]. *)
Definition replace_line (filename : bytes) (line_num : Z) (new_content : bytes)
  (w : world) : option (Z * world) :=
  match fopen_r filename w with
  | None => Some (1, fprintf_stderr (CannotOpen filename) w)
  | Some file =>
      st ← read_lines MAX_LINE_LENGTH file empty_array;
      if (0 <? line_num) && (line_num <=? num_lines st) then
        _ ← load (lines st) (line_num - 1);
        lines' ← store (lines st) (line_num - 1) (sprintf_line new_content);
        match fopen_w filename w with
        | None => Some (1, fprintf_stderr (CannotWrite filename) w)
        | Some w1 =>
            w2 ← write_loop (Z.to_nat (num_lines st)) 0 lines' filename w1;
            Some (0, w2)
        end
      else
        Some (1, fprintf_stderr (OutOfRange line_num (num_lines st)) w)
  end.

(** ** main *)

Definition isspace (c : ascii) : bool :=
  bool_decide (c = " "%char) ||
  (let n := nat_of_ascii c in (9 <=? n)%nat && (n <=? 13)%nat).

Definition isdigit (c : ascii) : bool :=
  let n := nat_of_ascii c in (48 <=? n)%nat && (n <=? 57)%nat.

Fixpoint skip_spaces (s : bytes) : bytes :=
  match s with
  | c :: s' => if isspace c then skip_spaces s' else s
  | [] => []
  end.

Fixpoint digits_value (acc : Z) (s : bytes) : Z :=
  match s with
  | c :: s' =>
      if isdigit c
      then digits_value (10 * acc + (Z.of_nat (nat_of_ascii c) - 48)) s'
      else acc
  | [] => acc
  end.

Definition LONG_MIN : Z := - 2 ^ 63.
Definition LONG_MAX : Z := 2 ^ 63 - 1.

(** [strtol(s, NULL, 10)]: white space, an optional sign, the longest run
    of digits; the value saturates at the bounds of [long] (64 bits, as on
    the Linux systems the tool is built for). *)
Definition strtol (s : bytes) : Z :=
  let v :=
    match skip_spaces (c_string s) with
    | c :: s' =>
        if decide (c = "-"%char) then - digits_value 0 s'
        else if decide (c = "+"%char) then digits_value 0 s'
        else digits_value 0 (c :: s')
    | [] => 0
    end in
  Z.max LONG_MIN (Z.min LONG_MAX v).

(** The conversion of a [long] to [int]. *)
Definition to_int (v : Z) : Z := (v + 2 ^ 31) mod 2 ^ 32 - 2 ^ 31.

(** [atoi(s)] is [(int) strtol(s, NULL, 10)], as the C library defines
    it; the C standard leaves the result open when the value does not
    fit an [int], and the conversion below is the one of the GNU library. *)
Definition atoi (s : bytes) : Z := to_int (strtol s).

(** [main(argc, argv)] with [argc = length argv]. *)
Definition main (argv : list bytes) (w : world) : option (Z * world) :=
  match argv with
  | [_; filename; arg2; new_content] =>
      let line_num := atoi arg2 in
      replace_line filename line_num new_content w
  | _ => Some (1, fprintf_stderr (Usage (head argv)) w)
  end.

(** ** What the read phase stores *)

(** The buffers the successive calls of [fgets] return on a stream. *)
Fixpoint buffers (size : Z) (fuel : nat) (file : bytes) : list bytes :=
  match fuel with
  | O => []
  | S fuel' =>
      match fgets size file with
      | None => []
      | Some (buffer, file') => buffer :: buffers size fuel' file'
      end
  end.

Definition all_buffers (size : Z) (file : bytes) : list bytes :=
  buffers size (length file) file.

(** What the read phase stores for a file: a copy of every buffer. *)
Definition stored_lines (file : bytes) : list bytes :=
  strdup <$> all_buffers MAX_LINE_LENGTH file.

(** The array [st] holds the lines [l], in order, in its first slots. *)
Definition holds (st : line_array) (l : list bytes) : Prop :=
  num_lines st = Z.of_nat (length l) ∧
  capacity st = Z.of_nat (length (lines st)) ∧
  0 < capacity st ∧
  (length l <= length (lines st))%nat ∧
  take (length l) (lines st) = Some <$> l.

(** ** What replace_line computes *)

(** The lines written back: [l] with the line [line_num] replaced. *)
Definition replaced (l : list bytes) (line_num : Z) (new_content : bytes)
  : list bytes :=
  <[Z.to_nat (line_num - 1) := sprintf_line new_content]> l.

Definition rewritten (filename : bytes) (f : inode) (content : bytes)
  (w : world) : world :=
  {| fs := <[filename := {| data := content; readable := readable f;
                            writable := writable f |}]> (fs w);
     stderr := stderr w |}.

Definition outcome (filename : bytes) (line_num : Z) (new_content : bytes)
  (w : world) : Z * world :=
  match fs w !! filename with
  | Some f =>
      if readable f then
        let l := stored_lines (data f) in
        if (0 <? line_num) && (line_num <=? Z.of_nat (length l)) then
          if writable f
          then (0, rewritten filename f
                     (concat (replaced l line_num new_content)) w)
          else (1, fprintf_stderr (CannotWrite filename) w)
        else (1, fprintf_stderr (OutOfRange line_num (Z.of_nat (length l))) w)
      else (1, fprintf_stderr (CannotOpen filename) w)
  | None => (1, fprintf_stderr (CannotOpen filename) w)
  end.

(** ** The lines of a file, as the specification defines them

    "Line: a maximal run of text ending in (or, for the last line,
    optionally lacking) a newline character." *)
Fixpoint split_lines (s : bytes) : list bytes :=
  match s with
  | [] => []
  | c :: s' =>
      if decide (c = LF) then [c] :: split_lines s'
      else match split_lines s' with
           | [] => [[c]]
           | l :: ls => (c :: l) :: ls
           end
  end.

(** A text file the line buffer can hold: no NUL byte, and every line,
    its newline included, shorter than the buffer. *)
Definition well_formed (s : bytes) : Prop :=
  (NUL ∉ s) ∧
  Forall (fun l => Z.of_nat (length l) < MAX_LINE_LENGTH) (split_lines s).

(** The specification's lines, as a relation: every line but the last
    ends in its only newline; the last may have none. *)
Inductive lines_of : bytes → list bytes → Prop :=
  | lines_nil : lines_of [] []
  | lines_last l : l ≠ [] → LF ∉ l → lines_of l [l]
  | lines_cons body s ls :
      LF ∉ body → lines_of s ls → lines_of ((body ++ [LF]) ++ s) ((body ++ [LF]) :: ls).

#[global] Instance well_formed_dec s : Decision (well_formed s).
Proof. unfold well_formed. apply _. Defined.

(** Every line of the file, its newline included, is shorter than the
    buffer (at most 9999 bytes). *)
Definition lines_fit (s : bytes) : Prop :=
  Forall (fun l => Z.of_nat (length l) < MAX_LINE_LENGTH) (split_lines s).

#[global] Instance lines_fit_dec s : Decision (lines_fit s).
Proof. unfold lines_fit. apply _. Defined.

(** ** The line number argument, as the specification speaks of it *)

Definition is_sign (c : ascii) : bool :=
  bool_decide (c = "-"%char) || bool_decide (c = "+"%char).

Definition all_digits (s : bytes) : bool :=
  match s with
  | [] => false
  | _ :: _ => forallb isdigit s
  end.

(** A numeric argument: an optional sign, then decimal digits, at least
    one, and nothing else. *)
Definition numeric (s : bytes) : bool :=
  match s with
  | c :: s' => if is_sign c then all_digits s' else all_digits s
  | [] => false
  end.


(** ** The outcomes of a run *)

(** The four failures of a run, each with the diagnostic it prints.  The
    lines of the file are the lines of the specification
    ([split_lines]), and the line number is the one [atoi] reads. *)
Inductive failure (argv : list bytes) (w : world) : diag → Prop :=
  | wrong_argument_count :
      length argv ≠ 4%nat →
      failure argv w (Usage (head argv))
  | unopenable_for_reading argv0 filename arg2 new_content :
      argv = [argv0; filename; arg2; new_content] →
      (∀ f, fs w !! filename = Some f → readable f = false) →
      failure argv w (CannotOpen filename)
  | line_out_of_range argv0 filename arg2 new_content f :
      argv = [argv0; filename; arg2; new_content] →
      fs w !! filename = Some f → readable f = true →
      atoi arg2 < 1 ∨ atoi arg2 > Z.of_nat (length (split_lines (data f))) →
      failure argv w
        (OutOfRange (atoi arg2) (Z.of_nat (length (split_lines (data f)))))
  | unopenable_for_writing argv0 filename arg2 new_content f :
      argv = [argv0; filename; arg2; new_content] →
      fs w !! filename = Some f → readable f = true →
      1 ≤ atoi arg2 ≤ Z.of_nat (length (split_lines (data f))) →
      writable f = false →
      failure argv w (CannotWrite filename).

(** The replacement succeeded: the file could be read and written, the
    line number k is one of its lines, and the file now consists of its
    lines before k, the new content followed by a newline, and its lines
    after k; nothing was printed. *)
Inductive success (argv : list bytes) (w w' : world) : Prop :=
  | line_replaced argv0 filename arg2 new_content f :
      argv = [argv0; filename; arg2; new_content] →
      fs w !! filename = Some f → readable f = true → writable f = true →
      1 ≤ atoi arg2 ≤ Z.of_nat (length (split_lines (data f))) →
      content_of filename w'
      = Some (concat (take (Z.to_nat (atoi arg2) - 1) (split_lines (data f))
                      ++ [c_string new_content ++ [LF]]
                      ++ drop (Z.to_nat (atoi arg2)) (split_lines (data f)))) →
      stderr w' = stderr w →
      success argv w w'.

(** ** Worlds and files of the examples *)

(** A world with one file. *)
Definition one_file (filename content : bytes) : world :=
  {| fs := {[ filename := {| data := content; readable := true;
                             writable := true |} ]};
     stderr := [] |}.

Definition abc : bytes := lit "a" ++ [LF] ++ lit "b" ++ [LF] ++ lit "c" ++ [LF].

(** A line of 10000 bytes without a newline. *)
Definition long_line : bytes := replicate (Z.to_nat 10000) "a"%char.

(** A line of 9999 bytes and its newline, then the line "b". *)
Definition long_then_b : bytes :=
  replicate (Z.to_nat 9999) "a"%char ++ [LF] ++ lit "b" ++ [LF].

(** ** Notions of the further properties *)

(** The growth policy of the array: the capacity is 100 doubled some
    number of times, is not below the number of lines, and, once the
    array has grown, is below twice that number. *)
Definition capacity_ok (st : line_array) : Prop :=
  num_lines st ≤ capacity st ∧
  (capacity st = 100 ∨ capacity st < 2 * num_lines st) ∧
  ∃ j : nat, capacity st = 100 * 2 ^ Z.of_nat j.

(** The largest [int]. *)
Definition INT_MAX : Z := 2 ^ 31 - 1.

(** The body of the read loop with the arithmetic of [int]: [None] where
    [capacity *= 2] or [num_lines++] would leave the range of [int]
    (undefined behaviour in C). *)
Definition read_body_int (buffer : bytes) (st : line_array)
  : option line_array :=
  if (num_lines st >=? capacity st) && (INT_MAX <? capacity st * 2) then None
  else if INT_MAX <? num_lines st + 1 then None
  else read_body buffer st.

Fixpoint read_loop_int (size : Z) (fuel : nat) (file : bytes) (st : line_array)
  : option line_array :=
  match fuel with
  | O => Some st
  | S fuel' =>
      match fgets size file with
      | None => Some st
      | Some (buffer, file') =>
          st' ← read_body_int buffer st;
          read_loop_int size fuel' file' st'
      end
  end.

(** The number of newlines in a string. *)
Definition newlines (s : bytes) : nat := length (filter (fun c => c = LF) s).

(** * Properties *)

(** Settles a decidable proposition about concrete data by evaluation. *)
Ltac by_evaluation := refine (bool_decide_unpack _ _); vm_compute; exact I.

(** ** C strings *)

Lemma c_string_nul_free p : NUL ∉ c_string p.
Proof.
  induction p as [|c p IH]; simpl; [apply not_elem_of_nil|].
  case_decide; [apply not_elem_of_nil|].
  rewrite not_elem_of_cons. auto.
Qed.

Lemma c_string_id p : NUL ∉ p → c_string p = p.
Proof.
  induction p as [|c p IH]; simpl; [done|].
  rewrite not_elem_of_cons. intros [Hc Hp].
  case_decide; [congruence|]. by rewrite IH.
Qed.

Lemma c_string_idemp p : c_string (c_string p) = c_string p.
Proof. apply c_string_id, c_string_nul_free. Qed.

Lemma sprintf_line_nul_free s : NUL ∉ sprintf_line s.
Proof.
  unfold sprintf_line. rewrite not_elem_of_app. split.
  - apply c_string_nul_free.
  - rewrite list_elem_of_singleton. discriminate.
Qed.

(** ** fgets *)

Lemma fgets_aux_app room file buffer rest :
  fgets_aux room file = (buffer, rest) → buffer ++ rest = file.
Proof.
  revert file buffer rest.
  induction room as [|room IH]; intros [|c file] buffer rest; simpl;
    try (intros [= <- <-]; reflexivity).
  case_decide.
  - intros [= <- <-]. reflexivity.
  - destruct (fgets_aux room file) as [b r] eqn:E. intros [= <- <-].
    simpl. f_equal. by apply IH.
Qed.

Lemma fgets_aux_length room file buffer rest :
  fgets_aux room file = (buffer, rest) → (length buffer <= room)%nat.
Proof.
  revert file buffer rest.
  induction room as [|room IH]; intros [|c file] buffer rest; simpl;
    try (intros [= <- <-]; simpl; lia).
  case_decide.
  - intros [= <- <-]. simpl. lia.
  - destruct (fgets_aux room file) as [b r] eqn:E. intros [= <- <-].
    simpl. apply IH in E. lia.
Qed.

Lemma fgets_aux_progress room c file :
  ∃ b r, fgets_aux (S room) (c :: file) = (c :: b, r).
Proof.
  simpl. case_decide; [eauto|].
  destruct (fgets_aux room file) as [b r]. eauto.
Qed.

(** A buffer that [fgets] did not end at the end of the file comes back
    the same whatever follows it. *)
Lemma fgets_aux_closed room : ∀ s b r,
  fgets_aux room s = (b, r) → r ≠ [] → ∀ r', fgets_aux room (b ++ r') = (b, r').
Proof.
  induction room as [|room IH]; intros s b r.
  - simpl. by intros [= <- <-].
  - destruct s as [|c s]; simpl; [by intros [= <- <-]|].
    destruct (decide (c = LF)) as [Hc|Hc].
    + intros [= <- <-] _ r'. simpl. by destruct (decide (c = LF)).
    + destruct (fgets_aux room s) as [b' r0] eqn:E. intros [= <- <-] Hr r'.
      simpl. destruct (decide (c = LF)); [done|]. by rewrite (IH _ _ _ E Hr).
Qed.

Lemma fgets_aux_line room : ∀ body r,
  LF ∉ body → (length body < room)%nat →
  fgets_aux room ((body ++ [LF]) ++ r) = (body ++ [LF], r).
Proof.
  induction room as [|room IH]; intros [|c body] r Hb Hlen; simpl in *;
    try lia.
  - done.
  - apply not_elem_of_cons in Hb as [Hc Hb].
    destruct (decide (c = LF)); [congruence|]. rewrite IH; [done|done|lia].
Qed.

(** A line that fits the buffer is what one call of [fgets] returns. *)
Lemma split_lines_fgets c s :
  ∃ l rest, split_lines (c :: s) = l :: split_lines rest ∧
            c :: s = l ++ rest ∧ l ≠ [] ∧
            ∀ room, (length l <= room)%nat → fgets_aux room (c :: s) = (l, rest).
Proof.
  revert c. induction s as [|c' s IH]; intros c.
  - exists [c], []. simpl. case_decide.
    + split_and!; try done.
      intros [|room] Hroom; simpl in Hroom; [lia|]; simpl. by case_decide.
    + split_and!; try done.
      intros [|room] Hroom; simpl in Hroom; [lia|]; simpl. case_decide; [done|].
      by destruct room.
  - destruct (IH c') as (l & rest & Hs & Happ & Hne & Hf).
    cbn [split_lines]. case_decide.
    + exists [c], (c' :: s). split_and!; try done.
      intros [|room] Hroom; simpl in Hroom; [lia|]; simpl. by case_decide.
    + cbn [split_lines] in Hs. rewrite Hs.
      exists (c :: l), rest. split_and!; try done.
      * by rewrite Happ.
      * intros [|room] Hroom; simpl in Hroom; [lia|].
        cbn [fgets_aux]. destruct (decide (c = LF)); [done|].
        rewrite Hf by lia. done.
Qed.

(** ** The loop over the stream

    The lemmas of this section hold for every buffer of two bytes or
    more: a call of [fgets] that returns a buffer has consumed a byte. *)

Section buffer_size.

Variable size : Z.
Hypothesis Hsize : 1 < size.

Lemma fgets_shorter file buffer rest :
  fgets size file = Some (buffer, rest) →
  (length rest < length file)%nat ∧ buffer ++ rest = file ∧ buffer ≠ [].
Proof.
  destruct file as [|c file]; [discriminate|].
  unfold fgets. intros [= E].
  destruct (Z.to_nat (size - 1)) as [|room] eqn:Hroom; [lia|].
  destruct (fgets_aux_progress room c file) as (b & r & E').
  rewrite E' in E. injection E as <- <-.
  apply fgets_aux_app in E'. split_and!; [|done|done].
  rewrite <- E'. simpl. rewrite length_app. lia.
Qed.

Lemma read_loop_fuel fuel1 : ∀ fuel2 file st,
  (length file <= fuel1)%nat → (length file <= fuel2)%nat →
  read_loop size fuel1 file st = read_loop size fuel2 file st.
Proof.
  induction fuel1 as [|fuel1 IH]; intros fuel2 file st H1 H2.
  - destruct file; [|simpl in H1; lia]. by destruct fuel2.
  - destruct fuel2 as [|fuel2].
    + destruct file; [done|simpl in H2; lia].
    + simpl. destruct (fgets size file) as [[buffer rest]|] eqn:E; [|done].
      apply fgets_shorter in E as (Hlen & _ & _).
      destruct (read_body buffer st) as [st'|]; [|done]. simpl.
      apply IH; lia.
Qed.

(** The equation of the [while] loop. *)
Lemma read_lines_eq file st :
  read_lines size file st =
  match fgets size file with
  | None => Some st
  | Some (buffer, file') =>
      st' ← read_body buffer st; read_lines size file' st'
  end.
Proof.
  unfold read_lines. destruct file as [|c file]; [done|].
  simpl length. cbn [read_loop].
  destruct (fgets size (c :: file)) as [[buffer rest]|] eqn:E; [|done].
  apply fgets_shorter in E as (Hlen & _ & _). simpl in Hlen.
  destruct (read_body buffer st) as [st'|]; [|done]. simpl.
  apply read_loop_fuel; lia.
Qed.

Lemma buffers_fuel fuel1 : ∀ fuel2 file,
  (length file <= fuel1)%nat → (length file <= fuel2)%nat →
  buffers size fuel1 file = buffers size fuel2 file.
Proof.
  induction fuel1 as [|fuel1 IH]; intros fuel2 file H1 H2.
  - destruct file; [|simpl in H1; lia]. by destruct fuel2.
  - destruct fuel2 as [|fuel2].
    + destruct file; [done|simpl in H2; lia].
    + simpl. destruct (fgets size file) as [[buffer rest]|] eqn:E; [|done].
      apply fgets_shorter in E as (Hlen & _ & _).
      f_equal. apply IH; lia.
Qed.

Lemma all_buffers_eq file :
  all_buffers size file =
  match fgets size file with
  | None => []
  | Some (buffer, file') => buffer :: all_buffers size file'
  end.
Proof.
  unfold all_buffers. destruct file as [|c file]; [done|].
  simpl length. cbn [buffers].
  destruct (fgets size (c :: file)) as [[buffer rest]|] eqn:E; [|done].
  apply fgets_shorter in E as (Hlen & _ & _). simpl in Hlen.
  f_equal. apply buffers_fuel; lia.
Qed.

(** The buffers, joined, are the stream. *)
Lemma concat_buffers fuel : ∀ s,
  (length s <= fuel)%nat → concat (buffers size fuel s) = s.
Proof.
  induction fuel as [|fuel IH]; intros s Hs.
  - by destruct s; [|simpl in Hs; lia].
  - simpl. destruct (fgets size s) as [[b r]|] eqn:E.
    + apply fgets_shorter in E as (Hlen & Happ & _).
      simpl. rewrite IH by lia. done.
    + by destruct s.
Qed.

Lemma concat_all_buffers s : concat (all_buffers size s) = s.
Proof. by apply concat_buffers. Qed.

(** When every line fits the buffer, the buffers are the lines. *)
Lemma buffers_split_lines fuel : ∀ s,
  (length s <= fuel)%nat →
  Forall (fun l => Z.of_nat (length l) < size) (split_lines s) →
  buffers size fuel s = split_lines s.
Proof.
  induction fuel as [|fuel IH]; intros [|c s] Hfuel Hfit;
    simpl in Hfuel; try done; try lia.
  destruct (split_lines_fgets c s) as (l & rest & Hs & Happ & Hne & Hf).
  rewrite Hs in Hfit |- *. apply Forall_cons in Hfit as [Hl Hfit].
  cbn [buffers fgets]. rewrite Hf by lia. f_equal.
  apply IH; [|done].
  apply (f_equal length) in Happ. rewrite length_app in Happ. simpl in Happ.
  destruct l; [done|]. simpl in Happ. lia.
Qed.

Lemma all_buffers_app b r :
  b ≠ [] →
  fgets_aux (Z.to_nat (size - 1)) (b ++ r) = (b, r) →
  all_buffers size (b ++ r) = b :: all_buffers size r.
Proof.
  intros Hb E. rewrite all_buffers_eq.
  unfold fgets. destruct b as [|c b]; [done|]. simpl app in *. by rewrite E.
Qed.

Lemma all_buffers_take (j : nat) : ∀ s rest,
  (j < length (all_buffers size s))%nat →
  all_buffers size (concat (take j (all_buffers size s)) ++ rest)
  = take j (all_buffers size s) ++ all_buffers size rest.
Proof.
  induction j as [|j IH]; intros s rest Hj; [done|].
  rewrite (all_buffers_eq s) in Hj |- *.
  destruct (fgets size s) as [[b r]|] eqn:E; [|simpl in Hj; lia].
  simpl in Hj. simpl. rewrite <- app_assoc.
  pose proof (fgets_shorter _ _ _ E) as (_ & _ & Hb).
  assert (Hr : r ≠ []).
  { intros ->. unfold all_buffers in Hj. simpl in Hj. lia. }
  destruct s as [|c s]; [done|]. injection E as E.
  rewrite all_buffers_app; [|done|by eapply fgets_aux_closed].
  rewrite IH by lia. done.
Qed.

Lemma all_buffers_drop (j : nat) : ∀ s,
  all_buffers size (concat (drop j (all_buffers size s)))
  = drop j (all_buffers size s).
Proof.
  induction j as [|j IH]; intros s.
  - by rewrite drop_0, concat_all_buffers.
  - rewrite (all_buffers_eq s).
    destruct (fgets size s) as [[b r]|]; [|done]. simpl. apply IH.
Qed.

(** Overwriting one stored buffer with a line that fits the buffer, and
    reading the concatenation back, gives the same buffers. *)
Lemma all_buffers_insert s (j : nat) body :
  (j < length (all_buffers size s))%nat →
  LF ∉ body → Z.of_nat (length body) + 1 < size →
  all_buffers size (concat (<[j := body ++ [LF]]> (all_buffers size s)))
  = <[j := body ++ [LF]]> (all_buffers size s).
Proof.
  intros Hj Hb Hlen.
  rewrite insert_take_drop by done.
  rewrite concat_app, concat_cons.
  rewrite all_buffers_take by done. f_equal.
  rewrite all_buffers_app; [| by destruct body |].
  - by rewrite all_buffers_drop.
  - apply fgets_aux_line; [done|lia].
Qed.

End buffer_size.

(** ** The array across the read phase *)

Lemma holds_empty_array : holds empty_array [].
Proof. unfold holds, empty_array, malloc_slots. simpl. split_and!; try done; lia. Qed.

Lemma holds_load st l (i : nat) p :
  holds st l → l !! i = Some p → load (lines st) (Z.of_nat i) = Some p.
Proof.
  intros (_ & _ & _ & Hle & Htake) Hi. unfold load.
  destruct (Z.leb_spec 0 (Z.of_nat i)); [|lia]. rewrite Nat2Z.id.
  assert (Hlt : (i < length l)%nat) by (by eapply lookup_lt_Some).
  rewrite <- (lookup_take_lt _ (length l)) by done.
  rewrite Htake, list_lookup_fmap, Hi. done.
Qed.

Lemma holds_store st l (i : nat) p :
  holds st l → (i < length l)%nat →
  ∃ a, store (lines st) (Z.of_nat i) p = Some a ∧
       holds {| lines := a; num_lines := num_lines st;
                capacity := capacity st |} (<[i := p]> l).
Proof.
  intros (Hn & Hcap & Hpos & Hle & Htake) Hi. unfold store.
  destruct (Z.leb_spec 0 (Z.of_nat i)); [|lia].
  destruct (Z.ltb_spec (Z.of_nat i) (Z.of_nat (length (lines st)))); [|lia].
  simpl. eexists; split; [done|]. rewrite Nat2Z.id.
  unfold holds; simpl. rewrite !length_insert. split_and!; try done.
  rewrite list_fmap_insert, <- Htake.
  apply take_insert_lt. done.
Qed.

Lemma read_body_holds buffer st l :
  holds st l →
  ∃ st', read_body buffer st = Some st' ∧ holds st' (l ++ [strdup buffer]).
Proof.
  intros (Hn & Hcap & Hpos & Hle & Htake). unfold read_body.
  destruct (Z.geb_spec (num_lines st) (capacity st)) as [Hfull|Hroom].
  - assert (Hlen : length (lines st) = length l) by lia.
    assert (Hall : lines st = Some <$> l).
    { rewrite <- Htake, <- Hlen. by rewrite firstn_all. }
    assert (Hre : realloc_slots (lines st) (capacity st * 2)
                  = (Some <$> l) ++ None :: replicate (length l - 1) None).
    { unfold realloc_slots. rewrite Hcap, Hlen.
      replace (Z.to_nat (Z.of_nat (length l) * 2)) with (length l + length l)%nat by lia.
      rewrite take_ge by lia. rewrite Hall. f_equal.
      replace (length l + length l - length l)%nat with (S (length l - 1)) by lia.
      done. }
    simpl. rewrite Hre. unfold store.
    rewrite length_app, length_fmap. simpl length. rewrite length_replicate.
    destruct (Z.leb_spec 0 (num_lines st)); [|lia].
    destruct (Z.ltb_spec (num_lines st) (Z.of_nat (length l + S (length l - 1))));
      [|lia].
    simpl. eexists; split; [done|].
    rewrite Hn, Nat2Z.id.
    rewrite insert_app_r_alt by (rewrite length_fmap; lia).
    rewrite length_fmap, Nat.sub_diag. simpl.
    unfold holds; simpl.
    rewrite !length_app, length_fmap. simpl. rewrite length_replicate.
    split_and!; try lia.
    rewrite fmap_app. simpl.
    rewrite take_app_ge by (rewrite length_fmap; lia).
    rewrite length_fmap.
    replace (length l + 1 - length l)%nat with 1%nat by lia. done.
  - simpl. unfold store.
    destruct (Z.leb_spec 0 (num_lines st)); [|lia].
    destruct (Z.ltb_spec (num_lines st) (Z.of_nat (length (lines st)))); [|lia].
    simpl. eexists; split; [done|].
    rewrite Hn, Nat2Z.id.
    unfold holds; simpl. rewrite length_insert, length_app. simpl.
    split_and!; try lia.
    rewrite fmap_app. simpl. rewrite <- Htake.
    replace (length l + 1)%nat with (S (length l)) by lia.
    erewrite take_S_r.
    + rewrite take_insert_ge by lia. done.
    + apply list_lookup_insert_eq. lia.
Qed.

Lemma read_loop_holds size fuel : ∀ file st l,
  holds st l →
  ∃ st', read_loop size fuel file st = Some st' ∧
         holds st' (l ++ (strdup <$> buffers size fuel file)).
Proof.
  induction fuel as [|fuel IH]; intros file st l H; simpl.
  - exists st. by rewrite app_nil_r.
  - destruct (fgets size file) as [[buffer rest]|].
    + destruct (read_body_holds buffer st l H) as (st1 & -> & H1). simpl.
      destruct (IH rest st1 _ H1) as (st' & -> & H').
      exists st'. split; [done|]. by rewrite <- app_assoc in H'.
    + exists st. by rewrite app_nil_r.
Qed.

(** The read phase never fails, and stores [stored_lines file]. *)
Lemma read_lines_stored file :
  ∃ st, read_lines MAX_LINE_LENGTH file empty_array = Some st ∧
        holds st (stored_lines file).
Proof.
  apply (read_loop_holds _ _ file empty_array [] holds_empty_array).
Qed.

(** ** The write phase *)

Lemma write_loop_all a filename : ∀ l2 l1 w,
  (∀ (i : nat) p, (l1 ++ l2) !! i = Some p → load a (Z.of_nat i) = Some p) →
  write_loop (length l2) (Z.of_nat (length l1)) a filename w
  = Some (foldl (fun w p => fputs p filename w) w l2).
Proof.
  induction l2 as [|p l2 IH]; intros l1 w Ha; simpl; [done|].
  rewrite (Ha (length l1) p) by (by rewrite list_lookup_middle). simpl.
  replace (Z.of_nat (length l1) + 1) with (Z.of_nat (length (l1 ++ [p])))
    by (rewrite length_app; simpl; lia).
  apply IH. intros i q. rewrite <- app_assoc. apply Ha.
Qed.

Lemma fputs_all filename : ∀ l w f,
  fs w !! filename = Some f →
  foldl (fun w p => fputs p filename w) w l
  = {| fs := <[filename := {| data := data f ++ concat (c_string <$> l);
                              readable := readable f;
                              writable := writable f |}]> (fs w);
       stderr := stderr w |}.
Proof.
  induction l as [|p l IH]; intros w f Hf; simpl.
  - rewrite app_nil_r. destruct w as [m e], f as [d r x]; simpl in *.
    by rewrite insert_id.
  - erewrite IH; [|simpl; rewrite lookup_alter_eq, Hf; done].
    simpl. by rewrite insert_alter_eq, <- app_assoc.
Qed.

Lemma c_string_fmap_id (l : list bytes) :
  Forall (fun p => NUL ∉ p) l → c_string <$> l = l.
Proof.
  induction 1 as [|p l Hp _ IH]; csimpl; [done|].
  by rewrite c_string_id, IH.
Qed.

Lemma stored_lines_nul_free file : Forall (fun p => NUL ∉ p) (stored_lines file).
Proof.
  unfold stored_lines. apply Forall_fmap, Forall_true.
  intros p. apply c_string_nul_free.
Qed.

(** ** replace_line, as a function of the file system *)

(** [replace_line] returns on every input, without undefined behaviour. *)
Lemma replace_line_outcome filename line_num new_content w :
  replace_line filename line_num new_content w
  = Some (outcome filename line_num new_content w).
Proof.
  unfold replace_line, outcome, fopen_r.
  destruct (fs w !! filename) as [f|] eqn:Hf; [|done].
  destruct (readable f) eqn:Hr; [|done].
  destruct (read_lines_stored (data f)) as (st & Hst & Hh).
  rewrite Hst. simpl.
  pose proof Hh as (Hn & _). rewrite Hn.
  set (l := stored_lines (data f)) in *.
  destruct ((0 <? line_num) && (line_num <=? Z.of_nat (length l))) eqn:Hk;
    [|done].
  apply andb_true_iff in Hk as [Hk1%Z.ltb_lt Hk2%Z.leb_le].
  set (j := Z.to_nat (line_num - 1)).
  assert (Hj : line_num - 1 = Z.of_nat j) by lia.
  assert (Hlt : (j < length l)%nat) by lia.
  destruct (lookup_lt_is_Some_2 l j Hlt) as [p Hp].
  rewrite Hj, (holds_load st l j p Hh Hp). simpl.
  destruct (holds_store st l j (sprintf_line new_content) Hh Hlt)
    as (a & -> & Ha). simpl.
  unfold fopen_w. rewrite Hf.
  destruct (writable f) eqn:Hw; [|done].
  replace (Z.to_nat (Z.of_nat (length l)))
    with (length (<[j := sprintf_line new_content]> l))
    by (rewrite length_insert; lia).
  rewrite (write_loop_all a filename _ []); simpl.
  - erewrite fputs_all; [|simpl; apply lookup_insert_eq]. simpl.
    rewrite insert_insert_eq, c_string_fmap_id.
    + unfold rewritten, replaced. fold j. by rewrite Hr, Hw.
    + apply Forall_insert; [apply stored_lines_nul_free|].
      apply sprintf_line_nul_free.
  - intros i q Hq. exact (holds_load _ _ i q Ha Hq).
Qed.

(** ** Lines and buffers *)

Lemma buffers_nul_free size fuel : ∀ s,
  NUL ∉ s → Forall (fun p => NUL ∉ p) (buffers size fuel s).
Proof.
  induction fuel as [|fuel IH]; intros s Hs; simpl; [done|].
  destruct s as [|c s]; simpl; [done|].
  destruct (fgets_aux (Z.to_nat (size - 1)) (c :: s)) as [buffer rest] eqn:E.
  apply fgets_aux_app in E. rewrite <- E in Hs.
  apply not_elem_of_app in Hs as [Hb Hr]. constructor; [done|]. by apply IH.
Qed.

Lemma stored_lines_nul_free_file s :
  NUL ∉ s → stored_lines s = all_buffers MAX_LINE_LENGTH s.
Proof.
  intros Hs. unfold stored_lines, strdup.
  apply c_string_fmap_id, buffers_nul_free, Hs.
Qed.

(** For a text file that fits the buffer, the read phase stores the lines
    of the file. *)
Lemma stored_lines_well_formed s :
  well_formed s → stored_lines s = split_lines s.
Proof.
  intros [Hnul Hfit]. rewrite stored_lines_nul_free_file by done.
  apply buffers_split_lines; [done|lia|done].
Qed.

Lemma split_lines_lines_of s : lines_of s (split_lines s).
Proof.
  induction s as [|c s IH]; cbn [split_lines]; [constructor|].
  case_decide as Hc.
  - subst c. apply (lines_cons [] s); [apply not_elem_of_nil|done].
  - destruct (split_lines s) as [|l ls] eqn:E; inversion IH; subst.
    + apply lines_last; [done|]. rewrite list_elem_of_singleton. congruence.
    + apply lines_last; [done|]. rewrite not_elem_of_cons. split; [congruence|done].
    + apply (lines_cons (c :: body)); [|done].
      rewrite not_elem_of_cons. split; [congruence|done].
Qed.

Lemma split_lines_no_newline l : LF ∉ l → l ≠ [] → split_lines l = [l].
Proof.
  induction l as [|c l IH]; [done|]. rewrite not_elem_of_cons.
  intros [Hc Hl] _. cbn [split_lines]. case_decide; [congruence|].
  destruct l as [|c' l]; [done|]. by rewrite IH.
Qed.

Lemma split_lines_terminated body s :
  LF ∉ body → split_lines ((body ++ [LF]) ++ s) = (body ++ [LF]) :: split_lines s.
Proof.
  induction body as [|c body IH]; intros Hb.
  - done.
  - apply not_elem_of_cons in Hb as [Hc Hb].
    change (((c :: body) ++ [LF]) ++ s) with (c :: ((body ++ [LF]) ++ s)).
    cbn [split_lines]. case_decide; [congruence|]. by rewrite IH.
Qed.

(** [split_lines] is the only splitting into such lines. *)
Lemma lines_of_split_lines s ls : lines_of s ls → ls = split_lines s.
Proof.
  induction 1 as [|l Hne Hl|body s ls Hb _ IH].
  - done.
  - by rewrite split_lines_no_newline.
  - by rewrite split_lines_terminated, IH.
Qed.

Lemma concat_split_lines s : concat (split_lines s) = s.
Proof.
  induction (split_lines_lines_of s) as [|l _ _|body s ls _ _ IH]; simpl.
  - done.
  - apply app_nil_r.
  - by rewrite IH.
Qed.

(** ** Lines of the rewritten file *)

Lemma length_le_concat (ls : list bytes) :
  Forall (fun l => (length l <= length (concat ls))%nat) ls.
Proof.
  induction ls as [|l ls IH]; simpl; [done|]. rewrite length_app.
  constructor; [lia|]. eapply Forall_impl; [exact IH|]. simpl. lia.
Qed.

(** With a buffer larger than the file, the buffers are the lines. *)
Lemma all_buffers_large size s :
  Z.of_nat (length s) + 1 < size → all_buffers size s = split_lines s.
Proof.
  intros Hsize. apply buffers_split_lines; [lia|done|].
  eapply Forall_impl; [apply length_le_concat|]. simpl.
  rewrite concat_split_lines. lia.
Qed.

Lemma length_concat_insert (ls : list bytes) (j : nat) x :
  (length (concat (<[j := x]> ls)) <= length (concat ls) + length x)%nat.
Proof.
  revert j. induction ls as [|l ls IH]; intros [|j]; simpl;
    rewrite ?length_app; try lia.
  specialize (IH j). lia.
Qed.

Lemma split_lines_insert s (j : nat) body :
  (j < length (split_lines s))%nat → LF ∉ body →
  split_lines (concat (<[j := body ++ [LF]]> (split_lines s)))
  = <[j := body ++ [LF]]> (split_lines s).
Proof.
  intros Hj Hb.
  set (size := Z.of_nat (length s + length body) + 3).
  assert (Hs : all_buffers size s = split_lines s)
    by (apply all_buffers_large; lia).
  rewrite <- Hs in Hj |- *.
  transitivity
    (all_buffers size (concat (<[j := body ++ [LF]]> (all_buffers size s)))).
  - symmetry. apply all_buffers_large.
    pose proof (length_concat_insert (all_buffers size s) j (body ++ [LF])) as H.
    rewrite concat_all_buffers, length_app in H by lia. simpl in H. lia.
  - apply all_buffers_insert; done || lia.
Qed.

(** ** The range check *)

Lemma in_range_true line_num n :
  1 ≤ line_num ≤ n → (0 <? line_num) && (line_num <=? n) = true.
Proof.
  intros [H1 H2]. apply andb_true_iff. split; [apply Z.ltb_lt|apply Z.leb_le]; lia.
Qed.

Lemma in_range_false line_num n :
  line_num < 1 ∨ line_num > n → (0 <? line_num) && (line_num <=? n) = false.
Proof.
  intros H. apply andb_false_iff.
  destruct H; [left; apply Z.ltb_ge|right; apply Z.leb_gt]; lia.
Qed.

(** * The claims *)

(** The two examples of the specification on the file "a\nb\nc\n":
    line 2 replaced by "X", and line 5, out of range. *)
Example replace_line_abc_2 :
  replace_line (lit "f") 2 (lit "X") (one_file (lit "f") abc)
  = Some (0, one_file (lit "f")
               (lit "a" ++ [LF] ++ lit "X" ++ [LF] ++ lit "c" ++ [LF])).
Proof. by vm_compute. Qed.

Example replace_line_abc_5 :
  replace_line (lit "f") 5 (lit "X") (one_file (lit "f") abc)
  = Some (1, fprintf_stderr (OutOfRange 5 3) (one_file (lit "f") abc)).
Proof. by vm_compute. Qed.

(** C8. Replacing a line of a file that does not exist fails with the
    diagnostic of the open for reading; the file system is left as it
    was, so no file appears at that path and nothing is written. *)
Theorem replace_line_missing_file filename line_num new_content w :
  fs w !! filename = None →
  ∃ w', replace_line filename line_num new_content w = Some (1, w') ∧
        stderr w' = stderr w ++ [CannotOpen filename] ∧
        fs w' = fs w ∧
        fs w' !! filename = None.
Proof.
  intros Hf. rewrite replace_line_outcome. unfold outcome. rewrite Hf.
  eexists; split_and!; done.
Qed.

Lemma replace_line_missing_file_witness :
  ∃ w', replace_line (lit "g") 1 (lit "X") (one_file (lit "f") (lit "a")) = Some (1, w') ∧
        stderr w' = [CannotOpen (lit "g")] ∧
        fs w' = fs (one_file (lit "f") (lit "a")) ∧
        fs w' !! lit "g" = None.
Proof.
  apply (replace_line_missing_file (lit "g") 1 (lit "X")
           (one_file (lit "f") (lit "a"))).
  vm_compute. reflexivity.
Defined.

(** C10. An empty file has no line: the read phase stores nothing,
    [num_lines] is 0, and for every line number, 1 included, replace_line
    fails with the range diagnostic and leaves the file system as it
    was. *)
Theorem replace_line_empty_file filename w f :
  fs w !! filename = Some f → readable f = true → data f = [] →
  ∃ st, read_lines MAX_LINE_LENGTH (data f) empty_array = Some st ∧
        num_lines st = 0 ∧
        ∀ line_num new_content,
          ∃ w', replace_line filename line_num new_content w = Some (1, w') ∧
                stderr w' = stderr w ++ [OutOfRange line_num 0] ∧
                fs w' = fs w.
Proof.
  intros Hf Hr Hd. rewrite Hd. exists empty_array. split_and!; try done.
  intros line_num new_content. rewrite replace_line_outcome.
  unfold outcome. rewrite Hf, Hr, Hd. simpl.
  rewrite in_range_false by lia.
  eexists; split_and!; done.
Qed.

Lemma replace_line_empty_file_witness :
  ∃ w', replace_line (lit "f") 1 (lit "X") (one_file (lit "f") []) = Some (1, w') ∧
        stderr w' = [OutOfRange 1 0] ∧
        fs w' = fs (one_file (lit "f") []).
Proof.
  destruct (replace_line_empty_file (lit "f") (one_file (lit "f") [])
              {| data := []; readable := true; writable := true |})
    as (st & _ & _ & H); [by vm_compute..|].
  exact (H 1 (lit "X")).
Defined.

Lemma stored_lines_fit s :
  lines_fit s → length (stored_lines s) = length (split_lines s).
Proof.
  intros Hfit. unfold stored_lines. rewrite length_fmap. f_equal.
  by apply buffers_split_lines.
Qed.

(** C2, as stated, fails on a line longer than the buffer: [long_line]
    is a file of one line, line number 2 is above its number of lines,
    and the call returns 0 and rewrites the file, the last byte of the
    line replaced. *)
Lemma replace_line_long_line_in_range :
  length (split_lines long_line) = 1%nat ∧
  replace_line (lit "f") 2 (lit "X") (one_file (lit "f") long_line)
  = Some (0, one_file (lit "f")
               (replicate (Z.to_nat 9999) "a"%char ++ lit "X" ++ [LF])).
Proof. split; by vm_compute. Qed.

(** C2, amended.  For a file with N lines, each shorter than
    MAX_LINE_LENGTH with its newline, and a line number below 1 or above
    N, replace_line fails with the range diagnostic, which names the
    line number and N, and the file system is the one before the call:
    the file is never opened for writing. *)
Theorem replace_line_out_of_range filename line_num new_content w f :
  fs w !! filename = Some f → readable f = true →
  lines_fit (data f) →
  line_num < 1 ∨ line_num > Z.of_nat (length (split_lines (data f))) →
  ∃ w', replace_line filename line_num new_content w = Some (1, w') ∧
        stderr w'
        = stderr w ++ [OutOfRange line_num
                         (Z.of_nat (length (split_lines (data f))))] ∧
        fs w' = fs w.
Proof.
  intros Hf Hr Hfit Hk. rewrite replace_line_outcome.
  unfold outcome. rewrite Hf, Hr. simpl.
  rewrite stored_lines_fit by done.
  rewrite in_range_false by done.
  eexists; split_and!; done.
Qed.

Lemma replace_line_out_of_range_witness :
  ∃ w', replace_line (lit "f") 5 (lit "X")
          (one_file (lit "f") (lit "a" ++ [LF] ++ lit "b" ++ [LF] ++ lit "c" ++ [LF]))
        = Some (1, w') ∧
        stderr w' = [OutOfRange 5 3] ∧
        fs w' = fs (one_file (lit "f")
                      (lit "a" ++ [LF] ++ lit "b" ++ [LF] ++ lit "c" ++ [LF])).
Proof.
  apply (replace_line_out_of_range (lit "f") 5 (lit "X")
           (one_file (lit "f")
              (lit "a" ++ [LF] ++ lit "b" ++ [LF] ++ lit "c" ++ [LF]))
           {| data := lit "a" ++ [LF] ++ lit "b" ++ [LF] ++ lit "c" ++ [LF];
              readable := true; writable := true |}).
  - by vm_compute.
  - done.
  - by_evaluation.
  - simpl. lia.
Defined.

(** C1. For a text file that fits the buffer, with lines l_1 .. l_N, and
    a line number k with 1 <= k <= N, replace_line returns 0 and the file
    then consists of l_1 .. l_(k-1), the new content followed by one
    newline, and l_(k+1) .. l_N, in this order; nothing is printed and no
    other file changes.  When the new content has no newline of its own,
    these are the lines of the new file. *)
Theorem replace_line_in_range filename line_num new_content w f :
  fs w !! filename = Some f → readable f = true → writable f = true →
  well_formed (data f) →
  1 ≤ line_num ≤ Z.of_nat (length (split_lines (data f))) →
  let l := split_lines (data f) in
  let k := Z.to_nat line_num in
  let l' := take (k - 1) l ++ [c_string new_content ++ [LF]] ++ drop k l in
  ∃ w', replace_line filename line_num new_content w = Some (0, w') ∧
        content_of filename w' = Some (concat l') ∧
        stderr w' = stderr w ∧
        (∀ other, other ≠ filename → fs w' !! other = fs w !! other) ∧
        (LF ∉ c_string new_content → split_lines (concat l') = l').
Proof.
  intros Hf Hr Hw Hwf Hk l k l'.
  assert (Hl' : l' = <[(k - 1)%nat := c_string new_content ++ [LF]]> l).
  { subst l'. rewrite insert_take_drop by (subst l k; lia).
    replace (S (k - 1)) with k by lia. done. }
  rewrite replace_line_outcome. unfold outcome.
  rewrite Hf, Hr, Hw. simpl.
  rewrite stored_lines_well_formed by done. fold l.
  rewrite in_range_true by done.
  eexists; split_and!; [done| | done | |].
  - unfold content_of, rewritten, replaced, sprintf_line. simpl.
    rewrite lookup_insert_eq. simpl.
    replace (Z.to_nat (line_num - 1)) with (k - 1)%nat by lia.
    by rewrite Hl'.
  - intros other Hne. unfold rewritten. simpl. by rewrite lookup_insert_ne.
  - intros Hlf. rewrite Hl'. apply split_lines_insert; [|done].
    subst l k. lia.
Qed.

Lemma replace_line_in_range_witness :
  ∃ w', replace_line (lit "f") 2 (lit "X")
          (one_file (lit "f") (lit "a" ++ [LF] ++ lit "b" ++ [LF] ++ lit "c" ++ [LF]))
        = Some (0, w') ∧
        content_of (lit "f") w'
        = Some (lit "a" ++ [LF] ++ lit "X" ++ [LF] ++ lit "c" ++ [LF]).
Proof.
  destruct (replace_line_in_range (lit "f") 2 (lit "X")
              (one_file (lit "f")
                 (lit "a" ++ [LF] ++ lit "b" ++ [LF] ++ lit "c" ++ [LF]))
              {| data := lit "a" ++ [LF] ++ lit "b" ++ [LF] ++ lit "c" ++ [LF];
                 readable := true; writable := true |})
    as (w' & Hrun & Hcontent & _).
  - by vm_compute.
  - done.
  - done.
  - by_evaluation.
  - simpl. lia.
  - exists w'. split; [exact Hrun|exact Hcontent].
Defined.

Lemma stored_lines_nonempty c s : stored_lines (c :: s) ≠ [].
Proof.
  unfold stored_lines. rewrite all_buffers_eq by done. unfold fgets.
  by destruct (fgets_aux _ _).
Qed.

(** C5, as stated, fails on a line longer than the buffer: [long_line]
    does not end in a newline and is one line, its final line is line 1,
    and replacing line 1 leaves the last byte of the old line after the
    new line: the file does not end in a newline. *)
Lemma replace_line_long_last_line :
  last long_line = Some "a"%char ∧
  split_lines long_line = [long_line] ∧
  replace_line (lit "f") 1 (lit "Y") (one_file (lit "f") long_line)
  = Some (0, one_file (lit "f") (lit "Y" ++ [LF] ++ lit "a")) ∧
  last (lit "Y" ++ [LF] ++ lit "a") ≠ Some LF.
Proof. split_and!; by vm_compute. Qed.

(** C5, amended.  When the lines of the file are each shorter than
    MAX_LINE_LENGTH and the file does not end in a newline, replacing
    its final line, line N of N, succeeds and the file then ends in the
    new content followed by a newline; when the file has no NUL byte,
    what comes before is the file without its final line.  In particular
    the file "a\nb" with line 2 replaced by "Y" becomes "a\nY\n". *)
Theorem replace_line_last_line filename new_content w f body c :
  fs w !! filename = Some f → readable f = true → writable f = true →
  data f = body ++ [c] → c ≠ LF →
  lines_fit (data f) →
  ∃ w' kept,
    replace_line filename (Z.of_nat (length (split_lines (data f))))
      new_content w = Some (0, w') ∧
    content_of filename w' = Some (kept ++ c_string new_content ++ [LF]) ∧
    (NUL ∉ data f →
     ∃ l, last (split_lines (data f)) = Some l ∧ data f = kept ++ l) ∧
    (data f = lit "a" ++ [LF] ++ lit "b" → new_content = lit "Y" →
     length (split_lines (data f)) = 2%nat ∧
     content_of filename w' = Some (lit "a" ++ [LF] ++ lit "Y" ++ [LF])).
Proof.
  intros Hf Hr Hw Hd Hc Hfit.
  pose proof (stored_lines_fit _ Hfit) as Hlen.
  set (l := stored_lines (data f)) in *.
  set (n := length (split_lines (data f))) in *.
  assert (Hpos : (1 <= n)%nat).
  { rewrite <- Hlen. subst l. rewrite Hd. destruct body; simpl;
      match goal with |- context [stored_lines (?a :: ?b)] =>
        pose proof (stored_lines_nonempty a b);
        destruct (stored_lines (a :: b)); [done|simpl; lia] end. }
  assert (Hrep : replaced l (Z.of_nat n) new_content
                 = take (n - 1) l ++ [c_string new_content ++ [LF]]).
  { unfold replaced, sprintf_line.
    replace (Z.to_nat (Z.of_nat n - 1)) with (n - 1)%nat by lia.
    rewrite insert_take_drop by lia.
    replace (S (n - 1)) with n by lia. by rewrite drop_ge by lia. }
  assert (Hcontent : content_of filename
            (rewritten filename f
               (concat (replaced l (Z.of_nat n) new_content)) w)
          = Some (concat (take (n - 1) l) ++ c_string new_content ++ [LF])).
  { unfold content_of, rewritten. simpl. rewrite lookup_insert_eq. simpl.
    rewrite Hrep, concat_app. simpl. by rewrite app_nil_r. }
  exists (rewritten filename f
            (concat (replaced l (Z.of_nat n) new_content)) w),
         (concat (take (n - 1) l)).
  split_and!; [|done| |].
  - rewrite replace_line_outcome. unfold outcome. rewrite Hf, Hr, Hw. simpl.
    fold l. rewrite Hlen, in_range_true by lia. done.
  - intros Hnul.
    assert (Hl : l = split_lines (data f)).
    { subst l. by apply stored_lines_well_formed. }
    rewrite Hl. set (ls := split_lines (data f)) in *.
    destruct (lookup_lt_is_Some_2 ls (n - 1)) as [x Hx]; [lia|].
    exists x. split.
    + rewrite last_lookup. by replace (pred (length ls)) with (n - 1)%nat by lia.
    + rewrite <- (concat_split_lines (data f)) at 1. fold ls.
      rewrite <- (take_drop_middle ls _ x Hx) at 1.
      replace (S (n - 1)) with n by lia.
      rewrite drop_ge, concat_app by lia. simpl. by rewrite app_nil_r.
  - intros Hab ->. rewrite Hcontent. subst n l. rewrite Hab.
    by vm_compute.
Qed.

Lemma replace_line_last_line_witness :
  ∃ w', replace_line (lit "f") 2 (lit "Y")
          (one_file (lit "f") (lit "a" ++ [LF] ++ lit "b")) = Some (0, w') ∧
        content_of (lit "f") w' = Some (lit "a" ++ [LF] ++ lit "Y" ++ [LF]).
Proof.
  destruct (replace_line_last_line (lit "f") (lit "Y")
              (one_file (lit "f") (lit "a" ++ [LF] ++ lit "b"))
              {| data := lit "a" ++ [LF] ++ lit "b";
                 readable := true; writable := true |}
              (lit "a" ++ [LF]) "b"%char)
    as (w' & kept & Hrun & _ & _ & Hex).
  - by vm_compute.
  - done.
  - done.
  - done.
  - discriminate.
  - by_evaluation.
  - destruct Hex as [_ Hcontent]; [done..|].
    exists w'. split; [exact Hrun|exact Hcontent].
Defined.

(** ** The read phase and the lines of the file *)

(** C3, as stated, fails on a line longer than the buffer: [long_line]
    is a file of one line, and the read phase stores two, the first 9999
    bytes and the last byte. *)
Lemma read_lines_long_line :
  lines_of long_line [long_line] ∧
  ¬ ∃ st ls, read_lines MAX_LINE_LENGTH long_line empty_array = Some st ∧
             lines_of long_line ls ∧
             num_lines st = Z.of_nat (length ls) ∧
             ∀ (i : nat) l, ls !! i = Some l → load (lines st) (Z.of_nat i) = Some l.
Proof.
  split.
  - replace [long_line] with (split_lines long_line) by (by vm_compute).
    apply split_lines_lines_of.
  - intros (st & ls & Hst & Hls & Hn & _).
    apply lines_of_split_lines in Hls. subst ls.
    assert (H2 : num_lines <$> read_lines MAX_LINE_LENGTH long_line empty_array
                 = Some 2) by (by vm_compute).
    rewrite Hst in H2. injection H2 as H2. rewrite H2 in Hn.
    assert (H1 : length (split_lines long_line) = 1%nat) by (by vm_compute).
    rewrite H1 in Hn. discriminate.
Qed.

(** C3, amended.  For a text file that fits the buffer (no NUL byte,
    every line with its newline shorter than MAX_LINE_LENGTH), the read
    phase splits the content exactly at the newlines: the lines stored,
    in order, are runs of bytes that end in their only newline, but for
    the last one, which may have none; they keep their newline; joined,
    they are the file; and [num_lines] is their number. *)
Theorem read_lines_splits_at_newlines file :
  well_formed file →
  ∃ st ls, read_lines MAX_LINE_LENGTH file empty_array = Some st ∧
           lines_of file ls ∧
           concat ls = file ∧
           num_lines st = Z.of_nat (length ls) ∧
           ∀ (i : nat) l, ls !! i = Some l → load (lines st) (Z.of_nat i) = Some l.
Proof.
  intros Hwf.
  destruct (read_lines_stored file) as (st & Hst & Hh).
  rewrite stored_lines_well_formed in Hh by done.
  exists st, (split_lines file). split_and!.
  - done.
  - apply split_lines_lines_of.
  - apply concat_split_lines.
  - apply Hh.
  - intros i l. by apply holds_load.
Qed.

Lemma read_lines_splits_at_newlines_witness :
  ∃ st, read_lines MAX_LINE_LENGTH (lit "a" ++ [LF] ++ lit "b") empty_array = Some st ∧
        num_lines st = 2 ∧
        load (lines st) 0 = Some (lit "a" ++ [LF]) ∧
        load (lines st) 1 = Some (lit "b").
Proof.
  destruct (read_lines_splits_at_newlines (lit "a" ++ [LF] ++ lit "b"))
    as (st & ls & Hst & Hls & _ & Hn & Hload).
  - by_evaluation.
  - apply lines_of_split_lines in Hls. subst ls.
    exists st. split_and!; [exact Hst|exact Hn| |].
    + by apply (Hload 0%nat).
    + by apply (Hload 1%nat).
Defined.

(** The amended C3 needs its first condition as well: [strdup] copies a
    buffer up to its first NUL byte, so the line "a", NUL, "b", newline
    is stored as "a". *)
Example read_lines_nul_byte :
  split_lines (lit "a" ++ [NUL] ++ lit "b" ++ [LF])
  = [lit "a" ++ [NUL] ++ lit "b" ++ [LF]] ∧
  (st ← read_lines MAX_LINE_LENGTH (lit "a" ++ [NUL] ++ lit "b" ++ [LF])
         empty_array;
   Some (num_lines st, load (lines st) 0))
  = Some (1, Some (lit "a")).
Proof. split; by vm_compute. Qed.

(** C9, as stated, fails on a line that fills the buffer: [long_then_b]
    has two lines, and the read phase stores three elements. *)
Lemma read_lines_long_then_b :
  length (split_lines long_then_b) = 2%nat ∧
  ¬ ∃ st, read_lines MAX_LINE_LENGTH long_then_b empty_array = Some st ∧
          holds st (split_lines long_then_b).
Proof.
  split; [by vm_compute|].
  intros (st & Hst & Hn & _).
  assert (H3 : num_lines <$> read_lines MAX_LINE_LENGTH long_then_b empty_array
               = Some 3) by (by vm_compute).
  rewrite Hst in H3. injection H3 as H3. rewrite H3 in Hn.
  assert (H2 : length (split_lines long_then_b) = 2%nat) by (by vm_compute).
  rewrite H2 in Hn. discriminate.
Qed.

(** C9, amended.  Every turn of the read loop, whether the array grows
    or not, appends the copy of the buffer to the sequence stored and
    keeps the elements before it in place; so the read phase stores the
    copies of all the buffers, in the order read.  For a text file that
    fits the buffer and has N lines, the sequence stored has exactly N
    elements and its i-th element is the i-th line of the file. *)
Theorem read_lines_keeps_order :
  (∀ st l buffer, holds st l →
     ∃ st', read_body buffer st = Some st' ∧ holds st' (l ++ [strdup buffer])) ∧
  (∀ file,
     ∃ st, read_lines MAX_LINE_LENGTH file empty_array = Some st ∧
           holds st (strdup <$> all_buffers MAX_LINE_LENGTH file)) ∧
  (∀ file, well_formed file →
     ∃ st, read_lines MAX_LINE_LENGTH file empty_array = Some st ∧
           holds st (split_lines file) ∧
           num_lines st = Z.of_nat (length (split_lines file)) ∧
           ∀ (i : nat) l, split_lines file !! i = Some l →
                          load (lines st) (Z.of_nat i) = Some l).
Proof.
  split_and!.
  - intros st l buffer. apply read_body_holds.
  - apply read_lines_stored.
  - intros file Hwf.
    destruct (read_lines_stored file) as (st & Hst & Hh).
    rewrite stored_lines_well_formed in Hh by done.
    exists st. split_and!; [done|done|apply Hh|].
    intros i l. by apply holds_load.
Qed.

(** 250 empty lines: the array grows twice. *)
Lemma read_lines_keeps_order_witness :
  ∃ st, read_lines MAX_LINE_LENGTH (replicate 250 LF) empty_array = Some st ∧
        num_lines st = 250 ∧ capacity st = 400 ∧
        load (lines st) 0 = Some [LF] ∧ load (lines st) 249 = Some [LF].
Proof.
  destruct read_lines_keeps_order as (_ & _ & H).
  destruct (H (replicate 250 LF)) as (st & Hst & Hh & Hn & Hload).
  - by_evaluation.
  - exists st. split_and!; [exact Hst|exact Hn| | |].
    + destruct Hh as (_ & -> & _). vm_compute in Hst.
      injection Hst as <-. reflexivity.
    + by apply (Hload 0%nat).
    + by apply (Hload 249%nat).
Defined.

(** ** Calling replace_line twice *)

(** C4, as stated, fails for a new content with a newline inside: the
    second call finds the two lines the first call wrote and replaces
    only the second line of the file it reads. *)
Lemma replace_line_twice_embedded_newline :
  let new_content := lit "X" ++ [LF] ++ lit "Y" in
  let w1 := one_file (lit "f")
              (lit "a" ++ [LF] ++ lit "X" ++ [LF] ++ lit "Y" ++ [LF] ++ lit "c" ++ [LF]) in
  let w2 := one_file (lit "f")
              (lit "a" ++ [LF] ++ lit "X" ++ [LF] ++ lit "Y" ++ [LF] ++ lit "Y" ++ [LF]
               ++ lit "c" ++ [LF]) in
  replace_line (lit "f") 2 new_content (one_file (lit "f") abc) = Some (0, w1) ∧
  replace_line (lit "f") 2 new_content w1 = Some (0, w2) ∧
  content_of (lit "f") w2 ≠ content_of (lit "f") w1.
Proof. split_and!; by vm_compute. Qed.

Lemma stored_lines_replaced s line_num new_content :
  NUL ∉ s →
  1 ≤ line_num ≤ Z.of_nat (length (stored_lines s)) →
  LF ∉ c_string new_content →
  strlen new_content + 1 < MAX_LINE_LENGTH →
  stored_lines (concat (replaced (stored_lines s) line_num new_content))
  = replaced (stored_lines s) line_num new_content.
Proof.
  intros Hs Hk Hlf Hlen. unfold replaced, sprintf_line.
  assert (Hfree : Forall (fun p => NUL ∉ p)
            (<[Z.to_nat (line_num - 1) := c_string new_content ++ [LF]]>
               (stored_lines s))).
  { apply Forall_insert; [apply stored_lines_nul_free|].
    apply sprintf_line_nul_free. }
  rewrite (stored_lines_nul_free_file s) in * by done.
  unfold stored_lines, strdup.
  rewrite all_buffers_insert; [by apply c_string_fmap_id|done|lia|done|].
  unfold strlen in Hlen. lia.
Qed.

(** C4, amended.  When the file has no NUL byte, and the new content has
    no newline and, with its newline, fits the buffer, the second of two
    calls with the same arguments returns what the first returned and
    leaves the file system as the first call left it. *)
Theorem replace_line_twice filename line_num new_content w :
  (∀ f, fs w !! filename = Some f → NUL ∉ data f) →
  LF ∉ c_string new_content →
  strlen new_content + 1 < MAX_LINE_LENGTH →
  ∃ status w1 w2,
    replace_line filename line_num new_content w = Some (status, w1) ∧
    replace_line filename line_num new_content w1 = Some (status, w2) ∧
    fs w2 = fs w1.
Proof.
  intros Hnul Hlf Hlen. rewrite replace_line_outcome.
  unfold outcome at 1.
  destruct (fs w !! filename) as [f|] eqn:Hf.
  2: { eexists 1, _, (fprintf_stderr _ (fprintf_stderr _ w)).
       split; [done|]. split; [|done].
       rewrite replace_line_outcome. unfold outcome. simpl. by rewrite Hf. }
  destruct (readable f) eqn:Hr.
  2: { eexists 1, _, (fprintf_stderr _ (fprintf_stderr _ w)).
       split; [done|]. split; [|done].
       rewrite replace_line_outcome. unfold outcome. simpl. by rewrite Hf, Hr. }
  simpl.
  destruct ((0 <? line_num) && (line_num <=? Z.of_nat (length (stored_lines (data f)))))
    eqn:Hk.
  2: { eexists 1, _, (fprintf_stderr _ (fprintf_stderr _ w)).
       split; [done|]. split; [|done].
       rewrite replace_line_outcome. unfold outcome. simpl.
       by rewrite Hf, Hr, Hk. }
  destruct (writable f) eqn:Hw.
  2: { eexists 1, _, (fprintf_stderr _ (fprintf_stderr _ w)).
       split; [done|]. split; [|done].
       rewrite replace_line_outcome. unfold outcome. simpl.
       by rewrite Hf, Hr, Hk, Hw. }
  apply andb_true_iff in Hk as [Hk1%Z.ltb_lt Hk2%Z.leb_le].
  set (l' := replaced (stored_lines (data f)) line_num new_content).
  exists 0, (rewritten filename f (concat l') w),
         (rewritten filename f (concat l') w).
  split; [done|]. split; [|done].
  rewrite replace_line_outcome. f_equal. unfold outcome, rewritten at 1. simpl.
  rewrite lookup_insert_eq. simpl. rewrite Hr, Hw. subst l'.
  rewrite stored_lines_replaced; [|by apply Hnul|lia|done|done].
  unfold replaced at 1. rewrite length_insert.
  rewrite in_range_true by lia.
  unfold rewritten, replaced. simpl.
  by rewrite list_insert_insert_eq, insert_insert_eq, Hr, Hw.
Qed.

Lemma replace_line_twice_witness :
  ∃ w1 w2,
    replace_line (lit "f") 2 (lit "X") (one_file (lit "f") abc) = Some (0, w1) ∧
    replace_line (lit "f") 2 (lit "X") w1 = Some (0, w2) ∧
    fs w2 = fs w1.
Proof.
  destruct (replace_line_twice (lit "f") 2 (lit "X") (one_file (lit "f") abc))
    as (status & w1 & w2 & H1 & H2 & Hfs).
  - intros f Hf. vm_compute in Hf. injection Hf as <-.
    by_evaluation.
  - by_evaluation.
  - by vm_compute.
  - assert (Hs : status = 0).
    { vm_compute in H1. by injection H1 as <- _. }
    rewrite Hs in H1, H2. exists w1, w2. done.
Defined.

(** The amended C4 needs its other two conditions as well.  A NUL byte
    in the file: the first call writes line 1 without its end, and the
    second call reads one line less. *)
Example replace_line_twice_nul_byte :
  let file := lit "a" ++ [NUL; LF] ++ lit "b" ++ [LF] ++ lit "c" ++ [LF]
              ++ lit "d" ++ [LF] in
  let w1 := one_file (lit "f") (lit "ab" ++ [LF] ++ lit "X" ++ [LF] ++ lit "d" ++ [LF]) in
  let w2 := one_file (lit "f") (lit "ab" ++ [LF] ++ lit "X" ++ [LF] ++ lit "X" ++ [LF]) in
  replace_line (lit "f") 3 (lit "X") (one_file (lit "f") file) = Some (0, w1) ∧
  replace_line (lit "f") 3 (lit "X") w1 = Some (0, w2).
Proof. split; by vm_compute. Qed.

(** A new content of 9999 bytes: with its newline it does not fit the
    buffer, and the second call reads it as two lines. *)
Example replace_line_twice_long_content :
  let new_content := replicate (Z.to_nat 9999) "x"%char in
  let w1 := one_file (lit "f") (new_content ++ [LF]) in
  let w2 := one_file (lit "f") (new_content ++ [LF; LF]) in
  replace_line (lit "f") 1 new_content (one_file (lit "f") (lit "a" ++ [LF]))
  = Some (0, w1) ∧
  replace_line (lit "f") 1 new_content w1 = Some (0, w2).
Proof. split; by vm_compute. Qed.


Lemma digits_value_no_digit acc s :
  match s with d :: _ => isdigit d | [] => false end = false →
  digits_value acc s = acc.
Proof. destruct s as [|d s]; simpl; [done|]. by intros ->. Qed.




(** ** The exit status *)

Lemma success_not_failure argv w w' d :
  success argv w w' → failure argv w d → False.
Proof.
  intros [a0 fn a2 new f -> Hf Hr Hw Hk _ _] Hfail.
  inversion Hfail as [Hlen|? ? ? ? [= <- <- <- <-] Hr'
                      |? ? ? ? f' [= <- <- <- <-] Hf' Hr' Hk'
                      |? ? ? ? f' [= <- <- <- <-] Hf' Hr' Hk' Hw'].
  - by simpl in Hlen.
  - specialize (Hr' f Hf). congruence.
  - rewrite Hf in Hf'. injection Hf' as <-. lia.
  - rewrite Hf in Hf'. injection Hf' as <-. congruence.
Qed.

(** C7, as stated, fails on a line longer than the buffer: [long_line]
    is a file of one line, so line number 2 is out of range, and the run
    exits with status 0 after rewriting the file. *)
Lemma main_long_line_exit_status :
  failure [lit "prog"; lit "f"; lit "2"; lit "X"]
    (one_file (lit "f") long_line) (OutOfRange 2 1) ∧
  main [lit "prog"; lit "f"; lit "2"; lit "X"] (one_file (lit "f") long_line)
  = Some (0, one_file (lit "f")
               (replicate (Z.to_nat 9999) "a"%char ++ lit "X" ++ [LF])).
Proof.
  split; [|by vm_compute].
  assert (Hn : Z.of_nat (length (split_lines long_line)) = 1) by (by vm_compute).
  pose proof (line_out_of_range
                [lit "prog"; lit "f"; lit "2"; lit "X"]
                (one_file (lit "f") long_line)
                (lit "prog") (lit "f") (lit "2") (lit "X")
                {| data := long_line; readable := true; writable := true |}
                eq_refl) as H.
  simpl data in H. rewrite Hn in H.
  apply H; [by vm_compute|done|]. right. by vm_compute.
Qed.

(** The amended C7 needs the file to have no NUL byte as well: the run
    exits with status 0, and the file written is not the file with its
    line 2 replaced, the end of line 1 is lost. *)
Example main_nul_byte_exit_status :
  main [lit "prog"; lit "f"; lit "2"; lit "X"]
    (one_file (lit "f") (lit "a" ++ [NUL] ++ lit "z" ++ [LF] ++ lit "b" ++ [LF]))
  = Some (0, one_file (lit "f") (lit "a" ++ lit "X" ++ [LF])) ∧
  concat (take 1 (split_lines (lit "a" ++ [NUL] ++ lit "z" ++ [LF] ++ lit "b" ++ [LF]))
          ++ [lit "X" ++ [LF]])
  = lit "a" ++ [NUL] ++ lit "z" ++ [LF] ++ lit "X" ++ [LF].
Proof. split; by vm_compute. Qed.

(** C7, amended.  When the file named, if it can be read, is a text
    file that fits the buffer (no NUL byte, every line shorter than
    MAX_LINE_LENGTH): [main] returns 0 or 1; it returns 0 exactly when
    the replacement succeeded, and 1 on every failure: a wrong argument
    count, a file that cannot be opened for reading, a line number out
    of range, a file that cannot be opened for writing; a failed run
    prints its diagnostic and changes no file. *)
Theorem main_exit_status argv w :
  (∀ argv0 filename arg2 new_content f,
     argv = [argv0; filename; arg2; new_content] →
     fs w !! filename = Some f → readable f = true →
     well_formed (data f)) →
  ∃ status w',
    main argv w = Some (status, w') ∧
    ((status = 0 ∧ success argv w w') ∨
     (status = 1 ∧ ∃ d, failure argv w d ∧ w' = fprintf_stderr d w)) ∧
    (∀ w'', success argv w w'' → status = 0) ∧
    (∀ d, failure argv w d → status = 1).
Proof.
  intros Hwf.
  assert (Hdone : ∀ status w',
    main argv w = Some (status, w') →
    (status = 0 ∧ success argv w w') ∨
    (status = 1 ∧ ∃ d, failure argv w d ∧ w' = fprintf_stderr d w) →
    ∃ status w',
      main argv w = Some (status, w') ∧
      ((status = 0 ∧ success argv w w') ∨
       (status = 1 ∧ ∃ d, failure argv w d ∧ w' = fprintf_stderr d w)) ∧
      (∀ w'', success argv w w'' → status = 0) ∧
      (∀ d, failure argv w d → status = 1)).
  { intros status w' Hmain Hcase. exists status, w'.
    split_and!; [done|done| |].
    - intros w'' Hs. destruct Hcase as [[-> _]|[_ (d & Hd & _)]]; [done|].
      destruct (success_not_failure _ _ _ _ Hs Hd).
    - intros d Hd. destruct Hcase as [[_ Hs]|[-> _]]; [|done].
      destruct (success_not_failure _ _ _ _ Hs Hd). }
  assert (Husage : length argv ≠ 4%nat →
    (1 = 0 ∧ success argv w (fprintf_stderr (Usage (head argv)) w)) ∨
    (1 = 1 ∧ ∃ d, failure argv w d ∧
                  fprintf_stderr (Usage (head argv)) w = fprintf_stderr d w)).
  { intros Hlen. right. split; [done|]. eexists. split; [|done].
    by constructor. }
  destruct argv as [|argv0 [|filename [|arg2 [|new_content [|extra argv]]]]];
    try (eapply (Hdone 1); [reflexivity|apply Husage; simpl; lia]).
  clear Husage.
  assert (Hmain : main [argv0; filename; arg2; new_content] w
                  = Some (outcome filename (atoi arg2) new_content w))
    by apply replace_line_outcome.
  unfold outcome in Hmain.
  destruct (fs w !! filename) as [f|] eqn:Hf.
  2: { eapply Hdone; [exact Hmain|]. right. split; [done|].
       eexists. split; [|done].
       eapply unopenable_for_reading; [done|]. intros f. by rewrite Hf. }
  destruct (readable f) eqn:Hr.
  2: { eapply Hdone; [exact Hmain|]. right. split; [done|].
       eexists. split; [|done].
       eapply unopenable_for_reading; [done|]. intros f'. rewrite Hf.
       by intros [= <-]. }
  specialize (Hwf _ _ _ _ f eq_refl Hf Hr).
  simpl in Hmain. rewrite stored_lines_well_formed in Hmain by done.
  destruct ((0 <? atoi arg2)
            && (atoi arg2 <=? Z.of_nat (length (split_lines (data f))))) eqn:Hk.
  2: { eapply Hdone; [exact Hmain|]. right. split; [done|].
       eexists. split; [|done].
       eapply line_out_of_range; [done..|].
       apply andb_false_iff in Hk as [Hk%Z.ltb_ge|Hk%Z.leb_gt]; lia. }
  apply andb_true_iff in Hk as [Hk1%Z.ltb_lt Hk2%Z.leb_le].
  destruct (writable f) eqn:Hw.
  2: { eapply Hdone; [exact Hmain|]. right. split; [done|].
       eexists. split; [|done].
       eapply unopenable_for_writing; [done|done|done|lia|done]. }
  eapply Hdone; [exact Hmain|]. left. split; [done|].
  eapply line_replaced; [done|done|done|done|lia| |done].
  unfold content_of, rewritten, replaced, sprintf_line. simpl.
  rewrite lookup_insert_eq. simpl. do 2 f_equal.
  rewrite insert_take_drop by lia.
  replace (Z.to_nat (atoi arg2 - 1)) with (Z.to_nat (atoi arg2) - 1)%nat by lia.
  replace (S (Z.to_nat (atoi arg2) - 1)) with (Z.to_nat (atoi arg2)) by lia.
  done.
Qed.

Lemma main_exit_status_witness :
  (∃ w', main [lit "prog"; lit "f"; lit "2"; lit "X"] (one_file (lit "f") abc)
         = Some (0, w') ∧
         content_of (lit "f") w'
         = Some (lit "a" ++ [LF] ++ lit "X" ++ [LF] ++ lit "c" ++ [LF])) ∧
  (∃ w', main [lit "prog"; lit "f"; lit "2"] (one_file (lit "f") abc)
         = Some (1, w')).
Proof.
  split.
  - destruct (main_exit_status [lit "prog"; lit "f"; lit "2"; lit "X"]
                (one_file (lit "f") abc))
      as (status & w' & Hmain & Hcase & _ & _).
    + intros argv0 filename arg2 new_content f [= <- <- <- <-] Hf _.
      vm_compute in Hf. injection Hf as <-. by_evaluation.
    + assert (Hs : status = 0).
      { vm_compute in Hmain. by injection Hmain as <- _. }
      rewrite Hs in Hmain. exists w'. split; [exact Hmain|].
      vm_compute in Hmain. injection Hmain as <-. by vm_compute.
  - destruct (main_exit_status [lit "prog"; lit "f"; lit "2"]
                (one_file (lit "f") abc))
      as (status & w' & Hmain & _ & _ & Hfail).
    + intros argv0 filename arg2 new_content f Habs. discriminate Habs.
    + rewrite (Hfail (Usage (Some (lit "prog")))) in Hmain.
      * exists w'. exact Hmain.
      * apply (wrong_argument_count [lit "prog"; lit "f"; lit "2"]). simpl. lia.
Defined.

(** * Further properties of replace_line and main *)

(** ** Helpers *)

Lemma read_lines_num_lines file st :
  read_lines MAX_LINE_LENGTH file empty_array = Some st →
  holds st (stored_lines file) ∧
  num_lines st = Z.of_nat (length (stored_lines file)).
Proof.
  intros Hst. destruct (read_lines_stored file) as (st' & Hst' & Hh).
  rewrite Hst in Hst'. injection Hst' as <-. split; [done|apply Hh].
Qed.

Lemma replace_line_success filename line_num new_content w f :
  fs w !! filename = Some f → readable f = true → writable f = true →
  1 ≤ line_num ≤ Z.of_nat (length (stored_lines (data f))) →
  replace_line filename line_num new_content w
  = Some (0, rewritten filename f
               (concat (replaced (stored_lines (data f)) line_num new_content)) w).
Proof.
  intros Hf Hr Hw Hk. rewrite replace_line_outcome. unfold outcome.
  rewrite Hf, Hr, Hw. simpl. by rewrite in_range_true.
Qed.

Lemma nul_free_concat (ls : list bytes) :
  Forall (fun p => NUL ∉ p) ls → NUL ∉ concat ls.
Proof.
  induction 1 as [|p ls Hp _ IH]; simpl; [apply not_elem_of_nil|].
  rewrite not_elem_of_app. done.
Qed.

Lemma replaced_nul_free l line_num new_content :
  Forall (fun p => NUL ∉ p) l →
  Forall (fun p => NUL ∉ p) (replaced l line_num new_content).
Proof.
  intros Hl. apply Forall_insert; [done|apply sprintf_line_nul_free].
Qed.

Lemma concat_replaced (l : list bytes) line_num new_content old :
  l !! Z.to_nat (line_num - 1) = Some old →
  concat l = concat (take (Z.to_nat (line_num - 1)) l) ++ old
             ++ concat (drop (S (Z.to_nat (line_num - 1))) l) ∧
  concat (replaced l line_num new_content)
  = concat (take (Z.to_nat (line_num - 1)) l) ++ (c_string new_content ++ [LF])
    ++ concat (drop (S (Z.to_nat (line_num - 1))) l).
Proof.
  intros Hold. split.
  - rewrite <- (take_drop_middle l _ old Hold) at 1.
    by rewrite concat_app, concat_cons.
  - unfold replaced, sprintf_line.
    rewrite insert_take_drop by (by eapply lookup_lt_Some).
    by rewrite concat_app, concat_cons.
Qed.

(** Every buffer [fgets] returns is non-empty, fits the buffer with its
    terminating NUL, and has no newline before its last byte. *)
Lemma fgets_aux_newline room : ∀ s b r,
  fgets_aux room s = (b, r) → LF ∉ removelast b.
Proof.
  induction room as [|room IH]; intros s b r.
  - simpl. intros [= <- <-]. apply not_elem_of_nil.
  - destruct s as [|c s]; simpl; [intros [= <- <-]; apply not_elem_of_nil|].
    destruct (decide (c = LF)) as [Hc|Hc].
    + intros [= <- <-]. apply not_elem_of_nil.
    + destruct (fgets_aux room s) as [b' r0] eqn:E. intros [= <- <-].
      specialize (IH _ _ _ E). destruct b' as [|c' b']; [apply not_elem_of_nil|].
      change (removelast (c :: c' :: b')) with (c :: removelast (c' :: b')).
      rewrite not_elem_of_cons. split; [congruence|done].
Qed.

Lemma buffers_shape size : 1 < size → ∀ fuel s,
  Forall (fun b => b ≠ [] ∧ Z.of_nat (length b) < size ∧ LF ∉ removelast b)
         (buffers size fuel s).
Proof.
  intros Hsize. induction fuel as [|fuel IH]; intros s; simpl; [done|].
  destruct (fgets size s) as [[b r]|] eqn:E; [|done].
  constructor; [|apply IH].
  pose proof (fgets_shorter size Hsize _ _ _ E) as (_ & _ & Hb).
  destruct s as [|c s]; [done|]. injection E as E.
  split_and!; [done| |by eapply fgets_aux_newline].
  apply fgets_aux_length in E. lia.
Qed.

Lemma length_buffers size : 1 < size → ∀ fuel s,
  (length (buffers size fuel s) <= length s)%nat.
Proof.
  intros Hsize. induction fuel as [|fuel IH]; intros s; simpl; [lia|].
  destruct (fgets size s) as [[b r]|] eqn:E; [|simpl; lia].
  pose proof (fgets_shorter size Hsize _ _ _ E) as (Hlen & _ & _).
  simpl. specialize (IH r). lia.
Qed.

(** ** What a call leaves alone *)

(** X1.  Whatever a call of replace_line returns, the value is 0 or 1,
    no other file has changed, no file was created or removed, the
    permissions of the file and what was printed before are as they
    were; a call that returns 0 has printed nothing, and a call that
    returns 1 has changed no file and printed one diagnostic. *)
Theorem replace_line_frame filename line_num new_content w status w' :
  replace_line filename line_num new_content w = Some (status, w') →
  (status = 0 ∨ status = 1) ∧
  (∀ other, other ≠ filename → fs w' !! other = fs w !! other) ∧
  (∀ path, is_Some (fs w' !! path) ↔ is_Some (fs w !! path)) ∧
  readable <$> fs w' !! filename = readable <$> fs w !! filename ∧
  writable <$> fs w' !! filename = writable <$> fs w !! filename ∧
  (status = 0 → stderr w' = stderr w) ∧
  (status = 1 → fs w' = fs w ∧ ∃ d, stderr w' = stderr w ++ [d]).
Proof.
  rewrite replace_line_outcome.
  assert (Hfail : ∀ d,
    Some (1, fprintf_stderr d w) = Some (status, w') →
    (status = 0 ∨ status = 1) ∧
    (∀ other, other ≠ filename → fs w' !! other = fs w !! other) ∧
    (∀ path, is_Some (fs w' !! path) ↔ is_Some (fs w !! path)) ∧
    readable <$> fs w' !! filename = readable <$> fs w !! filename ∧
    writable <$> fs w' !! filename = writable <$> fs w !! filename ∧
    (status = 0 → stderr w' = stderr w) ∧
    (status = 1 → fs w' = fs w ∧ ∃ d, stderr w' = stderr w ++ [d])).
  { intros d [= <- <-].
    split_and!; try done; [by right|]. intros _. split; [done|by exists d]. }
  unfold outcome.
  destruct (fs w !! filename) as [f|] eqn:Hf; [|apply Hfail].
  destruct (readable f) eqn:Hr; [|apply Hfail]. cbv zeta.
  destruct ((0 <? line_num) && _); [|apply Hfail].
  destruct (writable f) eqn:Hw; [|apply Hfail].
  intros [= <- <-]. unfold rewritten. simpl.
  split_and!; try done.
  - by left.
  - intros other Hne. by rewrite lookup_insert_ne.
  - intros path. destruct (decide (path = filename)) as [->|Hne].
    + rewrite lookup_insert_eq, Hf. split; eauto.
    + by rewrite lookup_insert_ne.
  - rewrite lookup_insert_eq. simpl. by rewrite Hr.
  - rewrite lookup_insert_eq. simpl. by rewrite Hw.
Qed.

Lemma replace_line_frame_witness :
  fs (one_file (lit "f") (lit "a" ++ [LF] ++ lit "X" ++ [LF] ++ lit "c" ++ [LF]))
     !! lit "g" = fs (one_file (lit "f") abc) !! lit "g" ∧
  stderr (one_file (lit "f") (lit "a" ++ [LF] ++ lit "X" ++ [LF] ++ lit "c" ++ [LF]))
  = stderr (one_file (lit "f") abc).
Proof.
  destruct (replace_line_frame (lit "f") 2 (lit "X") (one_file (lit "f") abc) 0
              (one_file (lit "f")
                 (lit "a" ++ [LF] ++ lit "X" ++ [LF] ++ lit "c" ++ [LF])))
    as (_ & Hother & _ & _ & _ & Herr & _); [by vm_compute|].
  split; [by apply Hother|by apply Herr].
Defined.

(** ** The order of the checks *)

(** X2.  On a file that can be read and cannot be written, the range
    check comes first: a line number out of range gives the range
    diagnostic, a line number in range the diagnostic of the open for
    writing; in both cases the call returns 1 and the file is as it
    was (it is not truncated). *)
Theorem replace_line_read_only filename w f :
  fs w !! filename = Some f → readable f = true → writable f = false →
  ∃ st, read_lines MAX_LINE_LENGTH (data f) empty_array = Some st ∧
    ∀ line_num new_content,
      ∃ w', replace_line filename line_num new_content w = Some (1, w') ∧
            fs w' = fs w ∧
            (1 ≤ line_num ≤ num_lines st →
             stderr w' = stderr w ++ [CannotWrite filename]) ∧
            (line_num < 1 ∨ line_num > num_lines st →
             stderr w' = stderr w ++ [OutOfRange line_num (num_lines st)]).
Proof.
  intros Hf Hr Hw.
  destruct (read_lines_stored (data f)) as (st & Hst & Hh).
  pose proof Hh as (Hn & _). exists st. split; [done|].
  intros line_num new_content. rewrite replace_line_outcome.
  unfold outcome. rewrite Hf, Hr, Hw. simpl. rewrite <- Hn.
  destruct ((0 <? line_num) && (line_num <=? num_lines st)) eqn:Hk.
  - apply andb_true_iff in Hk as [Hk1%Z.ltb_lt Hk2%Z.leb_le].
    eexists; split_and!; try done. lia.
  - apply andb_false_iff in Hk as [Hk%Z.ltb_ge|Hk%Z.leb_gt];
      (eexists; split_and!; try done; lia).
Qed.

Lemma replace_line_read_only_witness :
  ∃ w', replace_line (lit "f") 2 (lit "X")
          {| fs := {[ lit "f" := {| data := abc; readable := true;
                                    writable := false |} ]};
             stderr := [] |} = Some (1, w') ∧
        content_of (lit "f") w' = Some abc ∧
        stderr w' = [CannotWrite (lit "f")].
Proof.
  destruct (replace_line_read_only (lit "f")
              {| fs := {[ lit "f" := {| data := abc; readable := true;
                                        writable := false |} ]};
                 stderr := [] |}
              {| data := abc; readable := true; writable := false |})
    as (st & Hst & H); [by vm_compute|done|done|].
  vm_compute in Hst. injection Hst as <-.
  destruct (H 2 (lit "X")) as (w' & Hrun & Hfs & Hin & _).
  exists w'. split_and!; [exact Hrun| |].
  - unfold content_of. rewrite Hfs. by vm_compute.
  - apply Hin. simpl. lia.
Defined.

(** ** The bytes a successful call changes *)

(** X3.  On a file without NUL byte, lines of any length, a successful
    call changes one stretch of the file and nothing else: the file is
    [pre ++ old ++ post], where [old] is the buffer that the read phase
    stored at the line number (not empty, shorter than MAX_LINE_LENGTH),
    and it becomes [pre], the new content, a newline, [post]. *)
Theorem replace_line_changes_one_buffer filename line_num new_content w f st :
  fs w !! filename = Some f → readable f = true → writable f = true →
  NUL ∉ data f →
  read_lines MAX_LINE_LENGTH (data f) empty_array = Some st →
  1 ≤ line_num ≤ num_lines st →
  ∃ w' pre old post,
    replace_line filename line_num new_content w = Some (0, w') ∧
    data f = pre ++ old ++ post ∧
    content_of filename w' = Some (pre ++ (c_string new_content ++ [LF]) ++ post) ∧
    load (lines st) (line_num - 1) = Some old ∧
    old ≠ [] ∧ Z.of_nat (length old) < MAX_LINE_LENGTH.
Proof.
  intros Hf Hr Hw Hnul Hst Hk.
  apply read_lines_num_lines in Hst as [Hh Hn]. rewrite Hn in Hk.
  set (l := stored_lines (data f)) in *.
  destruct (lookup_lt_is_Some_2 l (Z.to_nat (line_num - 1))) as [old Hold];
    [lia|].
  destruct (concat_replaced l line_num new_content old Hold) as [Hd Hc].
  eexists _, _, old, _. split_and!.
  - by apply replace_line_success.
  - rewrite <- Hd. subst l. rewrite stored_lines_nul_free_file by done.
    symmetry. by apply concat_all_buffers.
  - unfold content_of, rewritten. simpl. rewrite lookup_insert_eq. simpl.
    fold l. by rewrite Hc.
  - replace (line_num - 1) with (Z.of_nat (Z.to_nat (line_num - 1))) by lia.
    by eapply holds_load.
  - subst l. rewrite stored_lines_nul_free_file in Hold by done.
    pose proof (buffers_shape MAX_LINE_LENGTH eq_refl
                  (length (data f)) (data f)) as Hshape.
    rewrite Forall_lookup in Hshape. by apply (Hshape _ _ Hold).
  - subst l. rewrite stored_lines_nul_free_file in Hold by done.
    pose proof (buffers_shape MAX_LINE_LENGTH eq_refl
                  (length (data f)) (data f)) as Hshape.
    rewrite Forall_lookup in Hshape. by apply (Hshape _ _ Hold).
Qed.

Lemma replace_line_changes_one_buffer_witness :
  ∃ w', replace_line (lit "f") 2 (lit "X") (one_file (lit "f") long_then_b)
        = Some (0, w') ∧
        content_of (lit "f") w'
        = Some (replicate (Z.to_nat 9999) "a"%char ++ lit "X" ++ [LF]
                ++ lit "b" ++ [LF]).
Proof.
  assert (Hst : ∃ st, read_lines MAX_LINE_LENGTH long_then_b empty_array = Some st
                      ∧ num_lines st = 3).
  { destruct (read_lines MAX_LINE_LENGTH long_then_b empty_array) as [st|] eqn:E;
      [|by vm_compute in E].
    exists st. split; [done|].
    assert (H : num_lines <$> read_lines MAX_LINE_LENGTH long_then_b empty_array
                = Some 3) by (by vm_compute).
    rewrite E in H. by injection H. }
  destruct Hst as (st & Hst & Hn).
  destruct (replace_line_changes_one_buffer (lit "f") 2 (lit "X")
              (one_file (lit "f") long_then_b)
              {| data := long_then_b; readable := true; writable := true |} st)
    as (w' & pre & old & post & Hrun & _).
  - by vm_compute.
  - done.
  - done.
  - by_evaluation.
  - exact Hst.
  - rewrite Hn. lia.
  - exists w'. split; [exact Hrun|].
    vm_compute in Hrun. injection Hrun as <-. by vm_compute.
Defined.

(** X4.  A call that returns 0 leaves a file that holds the new content
    followed by a newline, and no NUL byte, whatever the file held
    before. *)
Theorem replace_line_writes_no_nul filename line_num new_content w w' :
  replace_line filename line_num new_content w = Some (0, w') →
  ∃ pre post,
    content_of filename w' = Some (pre ++ (c_string new_content ++ [LF]) ++ post) ∧
    NUL ∉ pre ++ (c_string new_content ++ [LF]) ++ post.
Proof.
  rewrite replace_line_outcome. unfold outcome.
  destruct (fs w !! filename) as [f|] eqn:Hf; [|by intros [= ?]].
  destruct (readable f); [|by intros [= ?]]. simpl.
  destruct ((0 <? line_num) && _) eqn:Hk; [|by intros [= ?]].
  destruct (writable f); [|by intros [= ?]]. intros [= <-].
  apply andb_true_iff in Hk as [Hk1%Z.ltb_lt Hk2%Z.leb_le].
  set (l := stored_lines (data f)) in *.
  destruct (lookup_lt_is_Some_2 l (Z.to_nat (line_num - 1))) as [old Hold];
    [lia|].
  destruct (concat_replaced l line_num new_content old Hold) as [_ Hc].
  eexists _, _. unfold content_of, rewritten. simpl.
  rewrite lookup_insert_eq. simpl. rewrite Hc. split; [done|].
  rewrite <- Hc. apply nul_free_concat, replaced_nul_free, stored_lines_nul_free.
Qed.

Lemma replace_line_writes_no_nul_witness :
  ∃ pre post,
    content_of (lit "f")
      (one_file (lit "f") (lit "a" ++ lit "X" ++ [LF]))
    = Some (pre ++ (c_string (lit "X") ++ [LF]) ++ post) ∧
    NUL ∉ pre ++ (c_string (lit "X") ++ [LF]) ++ post.
Proof.
  apply (replace_line_writes_no_nul (lit "f") 2 (lit "X")
           (one_file (lit "f") (lit "a" ++ [NUL] ++ lit "z" ++ [LF] ++ lit "b" ++ [LF]))).
  by vm_compute.
Defined.

(** ** The read phase on any file *)

Lemma length_c_string p : (length (c_string p) <= length p)%nat.
Proof.
  induction p as [|c p IH]; simpl; [done|]. case_decide; simpl; lia.
Qed.

(** X5.  Whatever the file holds, the read phase ends and stores, in
    order, strings without NUL byte that are shorter than
    MAX_LINE_LENGTH, at most one for every byte of the file.  When the
    file has no NUL byte, the strings stored, joined, are the file, none
    is empty, and a newline is only ever the last byte of one. *)
Theorem read_lines_any_file file :
  ∃ st ls,
    read_lines MAX_LINE_LENGTH file empty_array = Some st ∧
    holds st ls ∧
    Forall (fun l => (NUL ∉ l) ∧ Z.of_nat (length l) < MAX_LINE_LENGTH) ls ∧
    (length ls <= length file)%nat ∧
    (NUL ∉ file →
     concat ls = file ∧ Forall (fun l => l ≠ [] ∧ LF ∉ removelast l) ls).
Proof.
  destruct (read_lines_stored file) as (st & Hst & Hh).
  pose proof (buffers_shape MAX_LINE_LENGTH eq_refl (length file) file)
    as Hshape.
  exists st, (stored_lines file). split_and!; [done|done| | |].
  - unfold stored_lines. apply Forall_fmap.
    eapply Forall_impl; [exact Hshape|]. intros b (_ & Hlen & _). simpl.
    split; [apply c_string_nul_free|].
    unfold strdup. pose proof (length_c_string b). lia.
  - unfold stored_lines. rewrite length_fmap.
    by apply length_buffers.
  - intros Hnul. rewrite stored_lines_nul_free_file by done. split.
    + by apply concat_all_buffers.
    + eapply Forall_impl; [exact Hshape|]. by intros b (? & _ & ?).
Qed.

(** ** The growth of the array *)

Lemma read_body_capacity_ok buffer st st' :
  capacity_ok st → read_body buffer st = Some st' → capacity_ok st'.
Proof.
  intros (Hle & Hcap & j & Hj). unfold read_body.
  destruct (Z.geb_spec (num_lines st) (capacity st)) as [Hfull|Hroom]; simpl.
  - destruct (store _ _ _) as [a|]; [|done]. simpl. intros [= <-].
    unfold capacity_ok. simpl. split_and!; [lia|right; lia|].
    exists (S j). rewrite Nat2Z.inj_succ, Z.pow_succ_r by lia. lia.
  - destruct (store _ _ _) as [a|]; [|done]. simpl. intros [= <-].
    unfold capacity_ok. simpl. split_and!; [lia|lia|by exists j].
Qed.

Lemma read_loop_capacity_ok size fuel : ∀ file st st',
  capacity_ok st → read_loop size fuel file st = Some st' → capacity_ok st'.
Proof.
  induction fuel as [|fuel IH]; intros file st st' Hok; simpl.
  - by intros [= <-].
  - destruct (fgets size file) as [[buffer rest]|]; [|by intros [= <-]].
    destruct (read_body buffer st) as [st1|] eqn:E; [|done]. simpl.
    apply IH. by eapply read_body_capacity_ok.
Qed.

(** A capacity of the growth policy below 100 * 2^24 can be doubled
    within the range of [int]. *)
Lemma capacity_doubles (j : nat) :
  100 * 2 ^ Z.of_nat j < 1677721600 → 100 * 2 ^ Z.of_nat j * 2 ≤ INT_MAX.
Proof.
  intros H. assert (Hj : Z.of_nat j < 24).
  { apply (Z.pow_lt_mono_r_iff 2); lia. }
  assert (Hp : 2 ^ (Z.of_nat j + 1) ≤ 2 ^ 24)
    by (apply Z.pow_le_mono_r; lia).
  rewrite Z.pow_add_r in Hp by lia. unfold INT_MAX. lia.
Qed.

(** While lines stored and bytes left together are at most 1677721600,
    no turn of the loop leaves the range of [int]. *)
Lemma read_loop_int_eq size : 1 < size → ∀ fuel file st l,
  holds st l → capacity_ok st →
  Z.of_nat (length l + length file) ≤ 1677721600 →
  read_loop_int size fuel file st = read_loop size fuel file st.
Proof.
  intros Hsize. induction fuel as [|fuel IH]; intros file st l Hh Hok Hlen;
    simpl; [done|].
  destruct (fgets size file) as [[buffer rest]|] eqn:E; [|done].
  pose proof (fgets_shorter size Hsize _ _ _ E) as (Hrest & _ & _).
  pose proof Hh as (Hn & _). pose proof Hok as (Hle & _ & j & Hj).
  assert (Hbody : read_body_int buffer st = read_body buffer st).
  { unfold read_body_int.
    destruct (Z.geb_spec (num_lines st) (capacity st)) as [Hfull|Hroom]; simpl.
    - assert (Hd : capacity st * 2 ≤ INT_MAX).
      { rewrite Hj. apply capacity_doubles. lia. }
      destruct (Z.ltb_spec INT_MAX (capacity st * 2)); [lia|].
      destruct (Z.ltb_spec INT_MAX (num_lines st + 1)); [unfold INT_MAX in *; lia|].
      done.
    - destruct (Z.ltb_spec INT_MAX (num_lines st + 1)); [unfold INT_MAX in *; lia|].
      done. }
  rewrite Hbody.
  destruct (read_body_holds buffer st l Hh) as (st1 & Hst1 & Hh1).
  rewrite Hst1. simpl.
  apply (IH rest st1 (l ++ [strdup buffer])); [done| |].
  - by eapply read_body_capacity_ok.
  - rewrite length_app. simpl. lia.
Qed.

(** X6.  On a file of at most 1677721600 bytes no turn of the read loop
    leaves the range of [int]: the loop with the arithmetic of [int]
    ends as the loop of the embedding does.  Afterwards the array has
    exactly [capacity] slots, and the capacity is 100 doubled some number
    of times, not below the number of lines stored, below twice that
    number unless it is still 100, and at most INT_MAX. *)
Theorem read_lines_capacity file :
  Z.of_nat (length file) ≤ 1677721600 →
  ∃ st, read_loop_int MAX_LINE_LENGTH (length file) file empty_array = Some st ∧
        read_lines MAX_LINE_LENGTH file empty_array = Some st ∧
        Z.of_nat (length (lines st)) = capacity st ∧
        num_lines st ≤ capacity st ∧
        (capacity st = 100 ∨ capacity st < 2 * num_lines st) ∧
        (∃ j : nat, capacity st = 100 * 2 ^ Z.of_nat j) ∧
        capacity st ≤ INT_MAX.
Proof.
  intros Hlen.
  assert (Hok0 : capacity_ok empty_array).
  { unfold capacity_ok, empty_array. simpl.
    split_and!; [lia|by left|by exists 0%nat]. }
  destruct (read_lines_stored file) as (st & Hst & Hh).
  pose proof Hst as Hok. eapply read_loop_capacity_ok in Hok; [|exact Hok0].
  exists st. split_and!; try apply Hok.
  - rewrite (read_loop_int_eq MAX_LINE_LENGTH eq_refl _ _ _ []
               holds_empty_array Hok0) by (simpl; lia).
    exact Hst.
  - done.
  - symmetry. apply Hh.
  - destruct Hok as (Hle & Hcap & j & Hj).
    destruct Hh as (Hn & _).
    pose proof (length_buffers MAX_LINE_LENGTH eq_refl (length file) file) as Hb.
    unfold stored_lines, all_buffers in Hn. rewrite length_fmap in Hn.
    destruct Hcap as [->|Hcap]; [unfold INT_MAX; lia|].
    destruct (Z.lt_ge_cases (capacity st) 1677721600) as [Hlt|Hge];
      [unfold INT_MAX; lia|].
    assert (Hj24 : Z.of_nat j < 25).
    { apply (Z.pow_lt_mono_r_iff 2); [lia|lia|].
      change (2 ^ 25) with 33554432. lia. }
    assert (Hp : 2 ^ Z.of_nat j ≤ 2 ^ 24) by (apply Z.pow_le_mono_r; lia).
    change (2 ^ 24) with 16777216 in Hp. unfold INT_MAX. lia.
Qed.

Lemma read_lines_capacity_witness :
  ∃ st, read_loop_int MAX_LINE_LENGTH (length (replicate 250 LF))
          (replicate 250 LF) empty_array = Some st ∧
        num_lines st = 250 ∧ capacity st = 400.
Proof.
  destruct (read_lines_capacity (replicate 250 LF)) as (st & Hint & Hst & _).
  - by vm_compute.
  - assert (Hnum : num_lines st = 250 ∧ capacity st = 400).
    { clear Hint. vm_compute in Hst. injection Hst as <-.
      split; reflexivity. }
    exists st. split; [exact Hint|exact Hnum].
Defined.

(** ** Writing a line back *)

Lemma elem_of_concat_lookup (ls : list bytes) (j : nat) l c :
  ls !! j = Some l → c ∈ l → c ∈ concat ls.
Proof.
  intros Hl Hc. rewrite <- (take_drop_middle ls j l Hl), concat_app, concat_cons.
  rewrite !elem_of_app. auto.
Qed.

(** X7.  Replacing a line of a text file that fits the buffer by its own
    text (the line without its newline) succeeds and leaves the whole
    file system as it was. *)
Theorem replace_line_same_text filename (j : nat) body w f :
  fs w !! filename = Some f → readable f = true → writable f = true →
  well_formed (data f) →
  split_lines (data f) !! j = Some (body ++ [LF]) →
  ∃ w', replace_line filename (Z.of_nat j + 1) body w = Some (0, w') ∧
        fs w' = fs w.
Proof.
  intros Hf Hr Hw Hwf Hj.
  assert (Hlt : (j < length (split_lines (data f)))%nat)
    by (by eapply lookup_lt_Some).
  assert (Hbody : NUL ∉ body).
  { intros Hin. destruct Hwf as [Hnul _]. apply Hnul.
    rewrite <- (concat_split_lines (data f)).
    eapply elem_of_concat_lookup; [exact Hj|]. rewrite elem_of_app. auto. }
  eexists. split.
  - apply replace_line_success; try done.
    rewrite stored_lines_well_formed by done. lia.
  - unfold rewritten, replaced, sprintf_line. simpl.
    rewrite stored_lines_well_formed by done.
    replace (Z.to_nat (Z.of_nat j + 1 - 1)) with j by lia.
    rewrite c_string_id by done.
    rewrite list_insert_id by done. rewrite concat_split_lines.
    apply insert_id. rewrite Hf. by destruct f.
Qed.

Lemma replace_line_same_text_witness :
  ∃ w', replace_line (lit "f") 2 (lit "b") (one_file (lit "f") abc) = Some (0, w') ∧
        fs w' = fs (one_file (lit "f") abc).
Proof.
  apply (replace_line_same_text (lit "f") 1 (lit "b") (one_file (lit "f") abc)
           {| data := abc; readable := true; writable := true |}).
  - by vm_compute.
  - done.
  - done.
  - by_evaluation.
  - by vm_compute.
Defined.

(** ** Two calls in a row *)

(** The world after a successful call, read again. *)
Lemma stored_lines_rewritten filename f line_num new_content w :
  NUL ∉ data f →
  1 ≤ line_num ≤ Z.of_nat (length (stored_lines (data f))) →
  LF ∉ c_string new_content →
  strlen new_content + 1 < MAX_LINE_LENGTH →
  let l := replaced (stored_lines (data f)) line_num new_content in
  let w1 := rewritten filename f (concat l) w in
  ∃ f1, fs w1 !! filename = Some f1 ∧ readable f1 = readable f ∧
        writable f1 = writable f ∧ stored_lines (data f1) = l ∧
        ∀ c, rewritten filename f1 c w1 = rewritten filename f c w.
Proof.
  intros Hnul Hk Hlf Hlen l w1.
  eexists. split; [apply lookup_insert_eq|]. simpl. split_and!; try done.
  - by apply stored_lines_replaced.
  - intros c. unfold rewritten. simpl. by rewrite insert_insert_eq.
Qed.

(** X8.  The last write wins.  On a file without NUL byte, after a
    successful replacement of line k by a content without newline that
    fits the buffer, replacing line k again, by any content, gives the
    file that this second replacement alone gives on the first file. *)
Theorem replace_line_last_write_wins filename line_num first second w f st :
  fs w !! filename = Some f → readable f = true → writable f = true →
  NUL ∉ data f →
  read_lines MAX_LINE_LENGTH (data f) empty_array = Some st →
  1 ≤ line_num ≤ num_lines st →
  LF ∉ c_string first → strlen first + 1 < MAX_LINE_LENGTH →
  ∃ w1 w2 w2',
    replace_line filename line_num first w = Some (0, w1) ∧
    replace_line filename line_num second w1 = Some (0, w2) ∧
    replace_line filename line_num second w = Some (0, w2') ∧
    fs w2 = fs w2'.
Proof.
  intros Hf Hr Hw Hnul Hst Hk Hlf Hlen.
  apply read_lines_num_lines in Hst as [_ Hn]. rewrite Hn in Hk.
  destruct (stored_lines_rewritten filename f line_num first w)
    as (f1 & Hf1 & Hr1 & Hw1 & Hl1 & Hre); try done.
  eexists _, _, _. split; [by apply replace_line_success|].
  split; [|split; [by apply replace_line_success|]].
  - apply (replace_line_success _ _ _ _ f1); [done|congruence|congruence|].
    rewrite Hl1. unfold replaced. rewrite length_insert. done.
  - rewrite Hre, Hl1. unfold rewritten, replaced. simpl.
    by rewrite list_insert_insert_eq.
Qed.

Lemma replace_line_last_write_wins_witness :
  ∃ w1 w2,
    replace_line (lit "f") 2 (lit "X") (one_file (lit "f") abc) = Some (0, w1) ∧
    replace_line (lit "f") 2 (lit "Y") w1 = Some (0, w2) ∧
    content_of (lit "f") w2 = Some (lit "a" ++ [LF] ++ lit "Y" ++ [LF] ++ lit "c" ++ [LF]).
Proof.
  destruct (read_lines MAX_LINE_LENGTH abc empty_array) as [st|] eqn:Hst;
    [|by vm_compute in Hst].
  assert (Hn : num_lines st = 3).
  { pose proof Hst as Hst'. vm_compute in Hst'. by injection Hst' as <-. }
  destruct (replace_line_last_write_wins (lit "f") 2 (lit "X") (lit "Y")
              (one_file (lit "f") abc)
              {| data := abc; readable := true; writable := true |} st)
    as (w1 & w2 & w2' & H1 & H2 & H3 & Hfs).
  - by vm_compute.
  - done.
  - done.
  - by_evaluation.
  - exact Hst.
  - rewrite Hn. lia.
  - by_evaluation.
  - by vm_compute.
  - exists w1, w2. split_and!; [exact H1|exact H2|].
    unfold content_of. rewrite Hfs.
    vm_compute in H3. injection H3 as <-. by vm_compute.
Defined.

(** X9.  Replacements of two different lines commute.  On a file
    without NUL byte, with two contents without newline that fit the
    buffer, replacing line j and then line k gives the file that
    replacing line k and then line j gives. *)
Theorem replace_line_commute filename j k content_j content_k w f st :
  fs w !! filename = Some f → readable f = true → writable f = true →
  NUL ∉ data f →
  read_lines MAX_LINE_LENGTH (data f) empty_array = Some st →
  1 ≤ j ≤ num_lines st → 1 ≤ k ≤ num_lines st → j ≠ k →
  LF ∉ c_string content_j → strlen content_j + 1 < MAX_LINE_LENGTH →
  LF ∉ c_string content_k → strlen content_k + 1 < MAX_LINE_LENGTH →
  ∃ wj wjk wk wkj,
    replace_line filename j content_j w = Some (0, wj) ∧
    replace_line filename k content_k wj = Some (0, wjk) ∧
    replace_line filename k content_k w = Some (0, wk) ∧
    replace_line filename j content_j wk = Some (0, wkj) ∧
    fs wjk = fs wkj.
Proof.
  intros Hf Hr Hw Hnul Hst Hj Hk Hjk Hlfj Hlenj Hlfk Hlenk.
  apply read_lines_num_lines in Hst as [_ Hn]. rewrite Hn in Hj, Hk.
  destruct (stored_lines_rewritten filename f j content_j w)
    as (fj & Hfj & Hrj & Hwj & Hlj & Hrej); try done.
  destruct (stored_lines_rewritten filename f k content_k w)
    as (fk & Hfk & Hrk & Hwk & Hlk & Hrek); try done.
  eexists _, _, _, _.
  split; [by apply replace_line_success|].
  split; [|split; [by apply replace_line_success|split]].
  - apply (replace_line_success _ _ _ _ fj); [done|congruence|congruence|].
    rewrite Hlj. unfold replaced. rewrite length_insert. done.
  - apply (replace_line_success _ _ _ _ fk); [done|congruence|congruence|].
    rewrite Hlk. unfold replaced. rewrite length_insert. done.
  - rewrite Hrej, Hrek, Hlj, Hlk. unfold rewritten, replaced. simpl.
    rewrite list_insert_insert_ne by lia. done.
Qed.

Lemma replace_line_commute_witness :
  ∃ w1 w2,
    replace_line (lit "f") 1 (lit "X") (one_file (lit "f") abc) = Some (0, w1) ∧
    replace_line (lit "f") 3 (lit "Z") w1 = Some (0, w2) ∧
    content_of (lit "f") w2 = Some (lit "X" ++ [LF] ++ lit "b" ++ [LF] ++ lit "Z" ++ [LF]).
Proof.
  destruct (read_lines MAX_LINE_LENGTH abc empty_array) as [st|] eqn:Hst;
    [|by vm_compute in Hst].
  assert (Hn : num_lines st = 3).
  { pose proof Hst as Hst'. vm_compute in Hst'. by injection Hst' as <-. }
  destruct (replace_line_commute (lit "f") 1 3 (lit "X") (lit "Z")
              (one_file (lit "f") abc)
              {| data := abc; readable := true; writable := true |} st)
    as (w1 & w2 & w3 & w4 & H1 & H2 & H3 & H4 & Hfs).
  - by vm_compute.
  - done.
  - done.
  - by_evaluation.
  - exact Hst.
  - rewrite Hn. lia.
  - rewrite Hn. lia.
  - lia.
  - by_evaluation.
  - by vm_compute.
  - by_evaluation.
  - by vm_compute.
  - exists w1, w2. split_and!; [exact H1|exact H2|].
    unfold content_of. rewrite Hfs.
    vm_compute in H3. injection H3 as <-.
    vm_compute in H4. injection H4 as <-. by vm_compute.
Defined.

(** ** A new content with newlines inside *)

Lemma length_concat_take (ls : list bytes) (j : nat) :
  (length (concat (take j ls)) <= length (concat ls))%nat.
Proof.
  revert j. induction ls as [|l ls IH]; intros [|j]; simpl;
    rewrite ?length_app; try lia.
  specialize (IH j). lia.
Qed.

Lemma length_concat_drop (ls : list bytes) (j : nat) :
  (length (concat (drop j ls)) <= length (concat ls))%nat.
Proof.
  revert j. induction ls as [|l ls IH]; intros [|j]; simpl;
    rewrite ?length_app; try lia.
  specialize (IH j). lia.
Qed.

Lemma split_lines_take s (j : nat) rest :
  (j < length (split_lines s))%nat →
  split_lines (concat (take j (split_lines s)) ++ rest)
  = take j (split_lines s) ++ split_lines rest.
Proof.
  intros Hj.
  set (size := Z.of_nat (length s + length rest) + 3).
  assert (Hs : all_buffers size s = split_lines s)
    by (apply all_buffers_large; lia).
  assert (Hrest : all_buffers size rest = split_lines rest)
    by (apply all_buffers_large; lia).
  rewrite <- Hs in Hj |- *. rewrite <- Hrest.
  rewrite <- all_buffers_take by (done || lia).
  symmetry. apply all_buffers_large.
  pose proof (length_concat_take (all_buffers size s) j) as H.
  rewrite concat_all_buffers in H by lia. rewrite length_app. lia.
Qed.

Lemma split_lines_drop s (j : nat) :
  split_lines (concat (drop j (split_lines s))) = drop j (split_lines s).
Proof.
  set (size := Z.of_nat (length s) + 3).
  assert (Hs : all_buffers size s = split_lines s)
    by (apply all_buffers_large; lia).
  rewrite <- Hs.
  transitivity (all_buffers size (concat (drop j (all_buffers size s)))).
  - symmetry. apply all_buffers_large.
    pose proof (length_concat_drop (all_buffers size s) j) as H.
    rewrite concat_all_buffers in H by lia. lia.
  - apply all_buffers_drop. lia.
Qed.

Lemma split_lines_nil s : split_lines s = [] → s = [].
Proof. intros H. by rewrite <- (concat_split_lines s), H. Qed.

Lemma split_lines_app_terminated s t :
  split_lines ((s ++ [LF]) ++ t) = split_lines (s ++ [LF]) ++ split_lines t.
Proof.
  induction s as [|c s IH]; [done|].
  change (((c :: s) ++ [LF]) ++ t) with (c :: ((s ++ [LF]) ++ t)).
  change ((c :: s) ++ [LF]) with (c :: (s ++ [LF])).
  cbn [split_lines]. destruct (decide (c = LF)).
  - by rewrite IH.
  - rewrite IH. destruct (split_lines (s ++ [LF])) as [|l ls] eqn:E; [|done].
    apply split_lines_nil in E. by destruct s.
Qed.

Lemma length_split_lines_terminated s :
  length (split_lines (s ++ [LF])) = S (newlines s).
Proof.
  unfold newlines. induction s as [|c s IH]; [done|].
  change ((c :: s) ++ [LF]) with (c :: (s ++ [LF])).
  cbn [split_lines]. rewrite filter_cons. destruct (decide (c = LF)).
  - simpl. by rewrite IH.
  - destruct (split_lines (s ++ [LF])) as [|l ls] eqn:E.
    + apply split_lines_nil in E. by destruct s.
    + simpl in *. done.
Qed.

(** X10.  On a text file that fits the buffer, a replacement whose new
    content has newlines inside puts several lines where one was: the
    lines of the new file are the lines before, the lines of the new
    content with its final newline, and the lines after; the file has as
    many lines more as the new content has newlines, so the lines after
    get that much higher numbers. *)
Theorem replace_line_embedded_newlines filename line_num new_content w f :
  fs w !! filename = Some f → readable f = true → writable f = true →
  well_formed (data f) →
  1 ≤ line_num ≤ Z.of_nat (length (split_lines (data f))) →
  let l := split_lines (data f) in
  let k := Z.to_nat line_num in
  ∃ w' content,
    replace_line filename line_num new_content w = Some (0, w') ∧
    content_of filename w' = Some content ∧
    split_lines content
    = take (k - 1) l ++ split_lines (c_string new_content ++ [LF]) ++ drop k l ∧
    length (split_lines content)
    = (length l + newlines (c_string new_content))%nat.
Proof.
  intros Hf Hr Hw Hwf Hk l k.
  assert (Hlt : (k - 1 < length l)%nat) by (subst l k; lia).
  destruct (lookup_lt_is_Some_2 l (k - 1) Hlt) as [old Hold].
  assert (Hj : Z.to_nat (line_num - 1) = (k - 1)%nat) by lia.
  destruct (concat_replaced l line_num new_content old) as [_ Hc];
    [by rewrite Hj|]. rewrite Hj in Hc.
  replace (S (k - 1)) with k in Hc by lia.
  assert (Hsplit :
    split_lines (concat (replaced l line_num new_content))
    = take (k - 1) l ++ split_lines (c_string new_content ++ [LF]) ++ drop k l).
  { rewrite Hc. subst l. rewrite split_lines_take by done.
    by rewrite split_lines_app_terminated, split_lines_drop. }
  eexists _, _. split_and!.
  - apply replace_line_success; try done.
    by rewrite stored_lines_well_formed.
  - unfold content_of, rewritten. simpl. rewrite lookup_insert_eq. simpl.
    by rewrite stored_lines_well_formed.
  - done.
  - etransitivity; [exact (f_equal length Hsplit)|].
    rewrite !length_app, length_split_lines_terminated.
    rewrite length_take, length_drop. lia.
Qed.

Lemma replace_line_embedded_newlines_witness :
  ∃ w' content,
    replace_line (lit "f") 2 (lit "X" ++ [LF] ++ lit "Y") (one_file (lit "f") abc)
    = Some (0, w') ∧
    content_of (lit "f") w' = Some content ∧
    split_lines content
    = [lit "a" ++ [LF]; lit "X" ++ [LF]; lit "Y" ++ [LF]; lit "c" ++ [LF]].
Proof.
  destruct (replace_line_embedded_newlines (lit "f") 2 (lit "X" ++ [LF] ++ lit "Y")
              (one_file (lit "f") abc)
              {| data := abc; readable := true; writable := true |})
    as (w' & content & Hrun & Hcontent & Hsplit & _).
  - by vm_compute.
  - done.
  - done.
  - by_evaluation.
  - simpl. lia.
  - exists w', content. split_and!; [exact Hrun|exact Hcontent|].
    rewrite Hsplit. by vm_compute.
Defined.

(** ** Text after the line number *)

Lemma c_string_app s t : NUL ∉ s → c_string (s ++ t) = s ++ c_string t.
Proof.
  induction s as [|c s IH]; [done|]. rewrite not_elem_of_cons.
  intros [Hc Hs]. simpl. destruct (decide (c = NUL)); [congruence|].
  by rewrite IH.
Qed.

Lemma digits_value_app ds : ∀ acc t,
  forallb isdigit ds = true →
  match t with d :: _ => isdigit d | [] => false end = false →
  digits_value acc (ds ++ t) = digits_value acc ds.
Proof.
  induction ds as [|d ds IH]; intros acc t Hds Ht.
  - simpl. by apply digits_value_no_digit.
  - simpl in *. apply andb_true_iff in Hds as [Hd Hds]. rewrite Hd.
    by apply IH.
Qed.

Lemma isdigit_facts c :
  isdigit c = true →
  isspace c = false ∧ c ≠ NUL ∧ c ≠ "-"%char ∧ c ≠ "+"%char.
Proof. by destruct c as [[] [] [] [] [] [] [] []]. Qed.

Lemma all_digits_facts s :
  all_digits s = true → forallb isdigit s = true ∧ NUL ∉ s.
Proof.
  destruct s as [|c s]; [done|]. unfold all_digits.
  generalize (c :: s). clear. intros s Hs. split; [done|].
  induction s as [|c s IH]; [apply not_elem_of_nil|].
  simpl in Hs. apply andb_true_iff in Hs as [Hc Hs].
  rewrite not_elem_of_cons. split; [|by apply IH].
  apply isdigit_facts in Hc as (_ & Hn & _). congruence.
Qed.

(** X11.  [main] reads the line number up to the first byte that is not
    a digit: a numeric argument followed by such a byte and anything
    else is the same line number, and the same run, as the numeric
    argument alone. *)
Theorem main_ignores_trailing_text arg c rest :
  numeric arg = true → isdigit c = false →
  atoi (arg ++ c :: rest) = atoi arg ∧
  ∀ argv0 filename new_content w,
    main [argv0; filename; arg ++ c :: rest; new_content] w
    = main [argv0; filename; arg; new_content] w.
Proof.
  intros Hnum Hc.
  assert (Ht : match c_string (c :: rest) with
               | d :: _ => isdigit d | [] => false end = false).
  { simpl. by destruct (decide (c = NUL)). }
  assert (H : atoi (arg ++ c :: rest) = atoi arg).
  { unfold atoi, strtol. f_equal. f_equal. f_equal.
    destruct arg as [|c0 ds]; [done|]. unfold numeric in Hnum.
    destruct (is_sign c0) eqn:Hsign.
    - apply all_digits_facts in Hnum as [Hds Hnul].
      assert (Hc0 : c0 = "-"%char ∨ c0 = "+"%char).
      { unfold is_sign in Hsign. apply orb_true_iff in Hsign.
        destruct Hsign as [H%bool_decide_eq_true|H%bool_decide_eq_true]; auto. }
      assert (Hnul0 : NUL ∉ c0 :: ds).
      { rewrite not_elem_of_cons. split; [|done].
        destruct Hc0 as [->| ->]; discriminate. }
      rewrite c_string_app, (c_string_id (c0 :: ds)) by done.
      destruct Hc0 as [->| ->]; simpl; by rewrite digits_value_app.
    - pose proof Hnum as [Hds Hnul]%all_digits_facts.
      rewrite c_string_app, (c_string_id (c0 :: ds)) by done.
      pose proof Hds as Hds'. simpl in Hds'.
      apply andb_true_iff in Hds' as [Hc0 _].
      apply isdigit_facts in Hc0 as (Hsp & _ & Hm & Hp).
      change ((c0 :: ds) ++ c_string (c :: rest))
        with (c0 :: (ds ++ c_string (c :: rest))).
      cbn [skip_spaces]. rewrite Hsp.
      destruct (decide (c0 = "-"%char)); [done|].
      destruct (decide (c0 = "+"%char)); [done|].
      change (c0 :: (ds ++ c_string (c :: rest)))
        with ((c0 :: ds) ++ c_string (c :: rest)).
      by rewrite digits_value_app. }
  split; [done|]. intros argv0 filename new_content w.
  unfold main. by rewrite H.
Qed.

Lemma main_ignores_trailing_text_witness :
  atoi (lit "2x") = atoi (lit "2") ∧
  main [lit "prog"; lit "f"; lit "2x"; lit "X"] (one_file (lit "f") abc)
  = main [lit "prog"; lit "f"; lit "2"; lit "X"] (one_file (lit "f") abc).
Proof.
  destruct (main_ignores_trailing_text (lit "2") "x"%char []) as [H0 H];
    [by vm_compute..|].
  split; [exact H0|].
  exact (H (lit "prog") (lit "f") (lit "X") (one_file (lit "f") abc)).
Defined.
